(** * Flow: the session tracker of src/App.tsx, embedded and verified.

    The React component [App] of src/App.tsx keeps one state object and
    changes it from event handlers.  This file embeds

    - the numbers of the program as IEEE 754 binary64 values (the kernel's
      primitive [float]), which is what a JavaScript Number is: [-], [/],
      [*] and [<] of the source are the primitive operations, so a division
      by zero yields an infinity or NaN here as it does there;
    - the few host functions the source calls ([Math.round], [Date],
      the conversions [ToString] and [ToNumber]) from their ECMAScript
      definitions, each one marked as such;
    - the state object as a record, [setState] as a record update, every
      handler as a function on the state, and the timer of [doTranistion] as
      a list of pending callbacks;
    - the summary screen as the list of properties it hands to [FlowItem];
    - [JSON.stringify] and [JSON.parse], through which the state object goes
      to [localStorage] and back, in the last part.

    Writes to [localStorage] never flow back into the running state (the only
    read is in the constructor), so the handlers below leave them out. *)

From Stdlib Require Import ZArith List String Ascii Bool Lia Floats QArith.
From Stdlib Require Import DecimalString.
Import ListNotations.

Local Open Scope Z_scope.

(** ** Host: JavaScript numbers and the library functions the source uses *)

Module Js.

(** A Number is a binary64 value. *)
Definition number := float.

(** The Number of an integer, rounded to nearest-even when it has more than
    53 significant bits. *)
Definition of_Z (z : Z) : number :=
  SF2Prim (binary_normalize prec emax z 0 false).

(** The rational a finite Number stands for; [None] for NaN and the
    infinities. *)
Definition to_Q (x : number) : option Q :=
  match Prim2SF x with
  | S754_zero _ => Some 0%Q
  | S754_finite s m e =>
      let n := if s then Z.neg m else Z.pos m in
      Some (if 0 <=? e then inject_Z (n * 2 ^ e) else Qmake n (Z.to_pos (2 ^ (- e))))
  | _ => None
  end.

(** The floor of [n/d + 1/2]. *)
Definition half_up (n d : Z) : Z := (2 * n + d) / (2 * d).

(** [Math.round] on a finite Number with a fractional part in its binary
    representation ([m * 2^e] with [e < 0]), as an integer: the closest
    integer, the one nearer to +infinity on a tie.  [None] for the Numbers
    that have none (NaN, infinities, zeros, and [m * 2^e] with [0 <= e],
    which are integers); [Math.round] returns those as they are. *)
Definition round_half_up (x : number) : option Z :=
  match Prim2SF x with
  | S754_finite s m e =>
      if 0 <=? e then None
      else
        let d := 2 ^ (- e) in
        let n := if s then Z.neg m else Z.pos m in
        Some (half_up n d)
  | _ => None
  end.

(** ECMAScript [Math.round]: NaN, infinities, zeros and integral values are
    returned unchanged (an integral value with [e < 0] is its own nearest
    integer); a value in [-0.5, 0) gives -0. *)
Definition Math_round (x : number) : number :=
  match round_half_up x with
  | Some r =>
      if r =? 0 then (if get_sign x then neg_zero else zero) else of_Z r
  | None => x
  end.

(** ECMAScript [ToIntegerOrInfinity] on a finite Number: truncation toward
    zero. *)
Definition truncate (x : number) : option Z :=
  match Prim2SF x with
  | S754_zero _ => Some 0
  | S754_finite s m e =>
      let a := if 0 <=? e then Z.pos m * 2 ^ e else Z.pos m / 2 ^ (- e) in
      Some (if s then - a else a)
  | _ => None
  end.

(** [ToString] of an integral Number below 10^21 in absolute value, and of
    NaN ([None]). *)
Definition ToString_int (n : option Z) : string :=
  match n with
  | Some z => NilZero.string_of_int (Z.to_int z)
  | None => "NaN"
  end.

(** [ToBoolean] of a string, and of a property that may be missing
    ([undefined]). *)
Definition truthy_string (s : string) : bool :=
  negb (String.eqb s "").

Definition truthy_prop (p : option string) : bool :=
  match p with
  | Some s => truthy_string s
  | None => false
  end.

(** [ToNumber] of a property that may be missing: [undefined] is NaN. *)
Definition ToNumber_prop (p : option number) : number :=
  match p with
  | Some x => x
  | None => nan
  end.

Definition digit_of (c : ascii) : option Z :=
  let n := Z.of_nat (nat_of_ascii c) in
  if (48 <=? n) && (n <=? 57) then Some (n - 48) else None.

Fixpoint digits_value (acc : Z) (s : string) : option Z :=
  match s with
  | EmptyString => Some acc
  | String c rest =>
      match digit_of c with
      | Some d => digits_value (10 * acc + d) rest
      | None => None
      end
  end.

(** [StringToNumber] on the strings an [<input type="range">] with integral
    bounds produces: a run of decimal digits is its value, the empty string
    is 0.  Every other string is mapped to NaN here; the full grammar
    (signs, fractions, exponents, blanks) is not needed for a slider. *)
Definition StringToNumber (s : string) : number :=
  match digits_value 0 s with
  | Some z => of_Z z
  | None => nan
  end.

(** *** [Date]

    A [Date] holds a time value: an integral number of milliseconds since
    the epoch, or NaN ([None]).  The offset of local time from UTC is the
    host's; it is the parameter [LocalTZA] (milliseconds, as a function of the
    UTC time value). *)
Definition Date := option Z.

Definition msPerMinute := 60000.
Definition msPerHour := 3600000.
Definition maxTime := 8640000000000000.

Definition TimeClip (t : number) : Date :=
  match truncate t with
  | Some z => if Z.abs z <=? maxTime then Some z else None
  | None => None
  end.

Definition new_Date (ms : number) : Date := TimeClip ms.

Definition getHours (LocalTZA : Z -> Z) (d : Date) : option Z :=
  match d with
  | Some t => Some (((t + LocalTZA t) / msPerHour) mod 24)
  | None => None
  end.

Definition getMinutes (LocalTZA : Z -> Z) (d : Date) : option Z :=
  match d with
  | Some t => Some (((t + LocalTZA t) / msPerMinute) mod 60)
  | None => None
  end.

End Js.

(** ** The data of src/App.tsx *)

(** [enum FlowState]: the screen the application shows. *)
Module FlowState.

Inductive t := Start | FlowPrompt | InFlow | FlowSummary.

Definition eqb (a b : t) : bool :=
  match a, b with
  | Start, Start | FlowPrompt, FlowPrompt
  | InFlow, InFlow | FlowSummary, FlowSummary => true
  | _, _ => false
  end.

End FlowState.

Definition SECONDS_IN_MINUTE : Js.number := 60%float.
Definition DEFAULT_ALLOWED_FLOW_LENGTH : Js.number := 60%float.

(** [interface IFlowItem].  The interface declares three properties, but the
    objects the program stores do not always have all of them: [startFlow]
    builds [{ name, startTime }] and [endFlow] stores [{}].  A property that
    is missing is [None]. *)
Module IFlowItem.

Record t := mk {
  name : option string;
  startTime : option Js.number;
  endTime : option Js.number
}.

(** The object literal [{}]. *)
Definition empty : t := mk None None None.

End IFlowItem.

(** [filterFlowLength] starts as a Number and becomes the string
    [event.target.value] once the slider has been moved. *)
Inductive NumOrString :=
| Num (n : Js.number)
| Str (s : string).

Definition ToNumber (v : NumOrString) : Js.number :=
  match v with
  | Num n => n
  | Str s => Js.StringToNumber s
  end.

(** The state object, with the properties of [DEFAULT_STATE].
    [currentFlow] is [null] ([None]) or an object. *)
Record State := mkState {
  startTime : Js.number;
  endTime : Js.number;
  flowInput : string;
  currentFlow : option IFlowItem.t;
  flowState : FlowState.t;
  flows : list IFlowItem.t;
  inTransition : bool;
  transitionTime : Js.number;
  filterFlowLength : NumOrString
}.

Definition DEFAULT_STATE : State := {|
  startTime := 0%float;
  endTime := 0%float;
  flowInput := "";
  currentFlow := None;
  flowState := FlowState.Start;
  flows := [];
  inTransition := false;
  transitionTime := 0%float;
  filterFlowLength := Num DEFAULT_ALLOWED_FLOW_LENGTH
|}.

(** [interface IFlowItemProps]; [taskName] is [flow.name], which may be
    missing, and [isTotal] is an optional property. *)
Record IFlowItemProps := mkProps {
  leftOffset : Js.number;
  rightOffset : Js.number;
  taskName : option string;
  minutesOnFlow : Js.number;
  isTotal : option bool
}.

(** ** The pure helpers *)

Definition secondsToMinutes (seconds : Js.number) : Js.number :=
  Js.Math_round (seconds / SECONDS_IN_MINUTE)%float.

Definition getOffset (startTime endTime totalTime : Js.number) : Js.number :=
  (((endTime - startTime) / totalTime) * 100)%float.

(** [hours] and [minutes] are integral Numbers or NaN ([None]); a comparison
    with NaN is false and [NaN % 12] is NaN. *)
Definition displayTimeStamp (LocalTZA : Z -> Z) (time : Js.number) : string :=
  let timeStamp := Js.new_Date (time * 1000)%float in
  let hours := Js.getHours LocalTZA timeStamp in
  let minutes := Js.getMinutes LocalTZA timeStamp in
  let ampm : string :=
    match hours with
    | Some h => if 12 <=? h then "pm"%string else "am"%string
    | None => "am"%string
    end in
  let formattedHours := option_map (fun h => Z.rem h 12) hours in
  let formattedHours :=
    match hours with
    | Some h => if h =? 0 then Some 12 else formattedHours
    | None => formattedHours
    end in
  let formattedMinutes : string :=
    match minutes with
    | Some m =>
        if m <? 10 then String.append "0" (Js.ToString_int minutes)
        else Js.ToString_int minutes
    | None => Js.ToString_int minutes
    end in
  String.append
    (String.append (String.append (Js.ToString_int formattedHours) ":")
       formattedMinutes)
    ampm.

(** ** [setState]: one update per property *)

Definition set_startTime (v : Js.number) (s : State) : State :=
  mkState v (endTime s) (flowInput s) (currentFlow s) (flowState s) (flows s)
    (inTransition s) (transitionTime s) (filterFlowLength s).

Definition set_endTime (v : Js.number) (s : State) : State :=
  mkState (startTime s) v (flowInput s) (currentFlow s) (flowState s) (flows s)
    (inTransition s) (transitionTime s) (filterFlowLength s).

Definition set_flowInput (v : string) (s : State) : State :=
  mkState (startTime s) (endTime s) v (currentFlow s) (flowState s) (flows s)
    (inTransition s) (transitionTime s) (filterFlowLength s).

Definition set_currentFlow (v : option IFlowItem.t) (s : State) : State :=
  mkState (startTime s) (endTime s) (flowInput s) v (flowState s) (flows s)
    (inTransition s) (transitionTime s) (filterFlowLength s).

Definition set_flowState (v : FlowState.t) (s : State) : State :=
  mkState (startTime s) (endTime s) (flowInput s) (currentFlow s) v (flows s)
    (inTransition s) (transitionTime s) (filterFlowLength s).

Definition set_flows (v : list IFlowItem.t) (s : State) : State :=
  mkState (startTime s) (endTime s) (flowInput s) (currentFlow s) (flowState s) v
    (inTransition s) (transitionTime s) (filterFlowLength s).

Definition set_inTransition (v : bool) (s : State) : State :=
  mkState (startTime s) (endTime s) (flowInput s) (currentFlow s) (flowState s)
    (flows s) v (transitionTime s) (filterFlowLength s).

Definition set_transitionTime (v : Js.number) (s : State) : State :=
  mkState (startTime s) (endTime s) (flowInput s) (currentFlow s) (flowState s)
    (flows s) (inTransition s) v (filterFlowLength s).

Definition set_filterFlowLength (v : NumOrString) (s : State) : State :=
  mkState (startTime s) (endTime s) (flowInput s) (currentFlow s) (flowState s)
    (flows s) (inTransition s) (transitionTime s) v.

(** ** [class App] *)

Module App.

(** A callback handed to [setTimeout] by [doTranistion] and not yet run. *)
Record Timer := mkTimer {
  delay : Js.number;
  nextState : FlowState.t;
  saveState : bool
}.

(** The component: its state object and the timers it has scheduled.

    [setState] is a record update applied at once.  React may delay the
    updates of one handler and apply them together; every handler below
    reads [this.state] before its first [setState] only, so the outcome is
    the same. *)
Record t := mk {
  state : State;
  timers : list Timer
}.

(** The component as constructed when nothing is restored from storage. *)
Definition initial : t := mk DEFAULT_STATE [].

Definition setState (f : State -> State) (a : t) : t :=
  mk (f (state a)) (timers a).

(** [doTranistion]: flags the transition and schedules the change of screen. *)
Definition doTranistion (nextState : FlowState.t) (transitionTime : Js.number)
  (saveState : bool) (a : t) : t :=
  let a := setState (fun s => set_inTransition true (set_transitionTime transitionTime s)) a in
  mk (state a) (timers a ++ [mkTimer transitionTime nextState saveState]).

(** The body of the function [doTranistion] gave to [setTimeout]. *)
Definition timeout_callback (tm : Timer) (a : t) : t :=
  setState (fun s => set_flowState (nextState tm) (set_inTransition false s)) a.

Definition handleStartClick (now : Js.number) (a : t) : t :=
  let a := setState (set_startTime now) a in
  doTranistion FlowState.FlowPrompt 500%float true a.

Definition handleFlowInputChange (value : string) (a : t) : t :=
  setState (set_flowInput value) a.

(** [startFlow]; [now] is the reading of [getTimeStamp()]. *)
Definition startFlow (taskName : string) (now : Js.number) (s : State) : State :=
  let flow := IFlowItem.mk (Some taskName) (Some now) None in
  set_currentFlow (Some flow) s.

Definition handleFlowSubmit (now : Js.number) (a : t) : t :=
  let inputFlow := flowInput (state a) in
  if (String.length inputFlow =? 0)%nat then a
  else
    let a := setState (startFlow inputFlow now) a in
    doTranistion FlowState.InFlow 500%float true a.

(** The guard of [endFlow]:
    [!this.state.currentFlow || !this.state.currentFlow.name]. *)
Definition no_flow (s : State) : bool :=
  match currentFlow s with
  | None => true
  | Some f => negb (Js.truthy_prop (IFlowItem.name f))
  end.

(** [endFlow]; [{ ...currentFlow, endTime: now }] keeps the other properties
    of the current flow. *)
Definition endFlow (now : Js.number) (s : State) : State :=
  match currentFlow s with
  | None => s
  | Some f =>
      if negb (Js.truthy_prop (IFlowItem.name f)) then s
      else
        let flow := IFlowItem.mk (IFlowItem.name f) (IFlowItem.startTime f) (Some now) in
        set_flows (flows s ++ [flow]) (set_currentFlow (Some IFlowItem.empty) s)
  end.

Definition handlePauseFlowClick (now : Js.number) (a : t) : t :=
  let a := setState (endFlow now) a in
  doTranistion FlowState.FlowPrompt 0%float true a.

(** [handleEndClick] reads the clock in [endFlow] (when a flow is ended) and
    again for [endTime]. *)
Definition handleEndClick (now1 now2 : Js.number) (a : t) : t :=
  let a := setState (endFlow now1) a in
  let a := setState (set_endTime now2) a in
  doTranistion FlowState.FlowSummary 500%float false a.

Definition handleSliderChange (value : string) (a : t) : t :=
  setState (set_filterFlowLength (Str value)) a.

(** [setState(DEFAULT_STATE)] gives every property its default. *)
Definition handleResetClick (a : t) : t :=
  setState (fun _ => DEFAULT_STATE) a.

(** *** The summary screen *)

(** The function [FlowSummary] maps over [flows]: [None] is its bare
    [return], for which nothing is drawn. *)
Definition FlowSummary_flow (s : State) (flow : IFlowItem.t) : option IFlowItemProps :=
  let dayStart := startTime s in
  let dayEnd := endTime s in
  let totalTime := (dayEnd - dayStart)%float in
  let flowStart := Js.ToNumber_prop (IFlowItem.startTime flow) in
  let flowEnd := Js.ToNumber_prop (IFlowItem.endTime flow) in
  let flowTime := (flowEnd - flowStart)%float in
  if (flowTime <? ToNumber (filterFlowLength s) * SECONDS_IN_MINUTE)%float then None
  else
    Some (mkProps
            (getOffset dayStart flowStart totalTime)
            (getOffset flowEnd dayEnd totalTime)
            (IFlowItem.name flow)
            (secondsToMinutes flowTime)
            None).

(** What [FlowSummary] draws: the two clock times of the day, the item of
    the whole day, and one entry per flow. *)
Record Summary := mkSummary {
  timeEnds : string * string;
  total : IFlowItemProps;
  items : list (option IFlowItemProps)
}.

Definition FlowSummary (LocalTZA : Z -> Z) (s : State) : Summary :=
  let dayStart := startTime s in
  let dayEnd := endTime s in
  let totalTime := (dayEnd - dayStart)%float in
  mkSummary
    (displayTimeStamp LocalTZA dayStart, displayTimeStamp LocalTZA dayEnd)
    (mkProps 0%float 0%float (Some "Total Time"%string)
       (secondsToMinutes totalTime) (Some true))
    (map (FlowSummary_flow s) (flows s)).

(** *** Events

    What can happen to the component: a handler runs because the user acted
    on an element, or a pending timer fires.  The readings of
    [getTimeStamp()] are part of the event; they follow the system clock and
    need not increase.  [Timeout i] fires the [i]-th pending timer, in any
    order: the delays are not modelled, so the sequences of events include
    all those the timers allow. *)
Inductive Event :=
| StartClick (now : Js.number)
| FlowInputChange (value : string)
| FlowSubmit (now : Js.number)
| PauseFlowClick (now : Js.number)
| EndClick (now1 now2 : Js.number)
| SliderChange (value : string)
| ResetClick
| Timeout (i : nat).

(** [render] decides which elements exist, hence which handlers can run. *)
Definition rendered (ev : Event) (a : t) : bool :=
  let fs := flowState (state a) in
  match ev with
  | StartClick _ => FlowState.eqb fs FlowState.Start
  | FlowInputChange _ | FlowSubmit _ => FlowState.eqb fs FlowState.FlowPrompt
  | PauseFlowClick _ => FlowState.eqb fs FlowState.InFlow
  | EndClick _ _ =>
      negb (FlowState.eqb fs FlowState.Start) && negb (FlowState.eqb fs FlowState.FlowSummary)
  | SliderChange _ | ResetClick => FlowState.eqb fs FlowState.FlowSummary
  | Timeout i => (i <? List.length (timers a))%nat
  end.

Fixpoint remove_nth {A : Type} (i : nat) (l : list A) : list A :=
  match i, l with
  | _, [] => []
  | O, _ :: l => l
  | S i, x :: l => x :: remove_nth i l
  end.

Definition handle (ev : Event) (a : t) : t :=
  match ev with
  | StartClick now => handleStartClick now a
  | FlowInputChange value => handleFlowInputChange value a
  | FlowSubmit now => handleFlowSubmit now a
  | PauseFlowClick now => handlePauseFlowClick now a
  | EndClick now1 now2 => handleEndClick now1 now2 a
  | SliderChange value => handleSliderChange value a
  | ResetClick => handleResetClick a
  | Timeout i =>
      match nth_error (timers a) i with
      | Some tm => timeout_callback tm (mk (state a) (remove_nth i (timers a)))
      | None => a
      end
  end.

(** One event; [None] when the element it needs is not on the screen. *)
Definition step (a : t) (ev : Event) : option t :=
  if rendered ev a then Some (handle ev a) else None.

Fixpoint run (a : t) (evs : list Event) : option t :=
  match evs with
  | [] => Some a
  | ev :: evs =>
      match step a ev with
      | Some a' => run a' evs
      | None => None
      end
  end.

(** The states the component can be in, starting from the default one. *)
Definition reachable (a : t) : Prop :=
  exists evs, run initial evs = Some a.

End App.

(** * Predicates and scenarios used by the properties *)

Import App.

(** The component after the events [evs], from the default state. *)
Definition after (evs : list Event) : App.t :=
  match run initial evs with
  | Some a => a
  | None => initial
  end.

(** The [startTime] of the current flow, when there is one. *)
Definition currentStart (s : State) : option Js.number :=
  match currentFlow s with
  | Some f => IFlowItem.startTime f
  | None => None
  end.

(** The duration the summary computes for a flow: [flow.endTime -
    flow.startTime], a missing property counting as NaN. *)
Definition duration_seconds (flow : IFlowItem.t) : Js.number :=
  (Js.ToNumber_prop (IFlowItem.endTime flow) -
   Js.ToNumber_prop (IFlowItem.startTime flow))%float.

(** The click on "Start over". *)
Definition is_reset (ev : Event) : bool :=
  match ev with
  | ResetClick => true
  | _ => false
  end.

(** A sequence of events without a click on "Start over". *)
Definition no_reset (evs : list Event) : bool :=
  forallb (fun ev => negb (is_reset ev)) evs.

(** The shapes [currentFlow] takes: [null], [{}], or a flow in progress
    (a non-empty name, a start time, no end time). *)
Definition current_shape (c : option IFlowItem.t) : Prop :=
  c = None \/ c = Some IFlowItem.empty \/
  exists n t, n <> ""%string /\ c = Some (IFlowItem.mk (Some n) (Some t) None).

(** The invariant of the reachable states: the shape of [currentFlow], no
    pending timer leads back to the start screen, and on the start screen
    there is no current flow. *)
Definition invariant (a : App.t) : Prop :=
  current_shape (currentFlow (state a)) /\
  Forall (fun tm => nextState tm <> FlowState.Start) (timers a) /\
  (flowState (state a) = FlowState.Start -> currentFlow (state a) = None).

(** ** Concrete states and days *)

(** A state in which the flow "a", started at 200, is running. *)
Definition flowing_a : State :=
  set_currentFlow (Some (IFlowItem.mk (Some "a"%string) (Some 200%float) None))
    (set_startTime 100%float DEFAULT_STATE).

(** The events up to a first submission: the day starts at 100, the prompt
    appears, "a" is typed and submitted at 200. *)
Definition first_submit : list Event :=
  [StartClick 100%float; Timeout 0; FlowInputChange "a"%string; FlowSubmit 200%float].

(** A whole day: "a" is worked on from 200 to 4000, then the day ends at 5000
    and the summary appears. *)
Definition one_flow_day : list Event :=
  first_submit ++
  [Timeout 0; PauseFlowClick 4000%float; Timeout 0;
   EndClick 5000%float 5000%float; Timeout 0].

(** A day in which every clock reading is 100, seen with the slider at 0. *)
Definition instant_day : list Event :=
  [StartClick 100%float; Timeout 0; FlowInputChange "a"%string;
   FlowSubmit 100%float; Timeout 0; EndClick 100%float 100%float; Timeout 0;
   SliderChange "0"%string].

(** The day of the example: from 0 to 7200, with "a" from 1800 to 3600, seen
    with the slider at 30 so that the flow is drawn. *)
Definition two_hour_day : list Event :=
  [StartClick 0%float; Timeout 0; FlowInputChange "a"%string;
   FlowSubmit 1800%float; Timeout 0; PauseFlowClick 3600%float; Timeout 0;
   EndClick 7200%float 7200%float; Timeout 0; SliderChange "30"%string].

(** The summary state of a day from 0 to 10000 with two completed flows, of
    3600 and of 3599 seconds, and the filter at its default of 60 minutes. *)
Definition boundary_summary : State :=
  mkState 0%float 10000%float ""%string (Some IFlowItem.empty)
    FlowState.FlowSummary
    [IFlowItem.mk (Some "a"%string) (Some 1000%float) (Some 4600%float);
     IFlowItem.mk (Some "b"%string) (Some 5000%float) (Some 8599%float)]
    false 500%float (Num DEFAULT_ALLOWED_FLOW_LENGTH).

(** ** Tactics *)

(** Two Numbers with different bit patterns are different. *)
Ltac float_neq :=
  let H := fresh in
  intro H; apply (f_equal Prim2SF) in H; vm_compute in H; discriminate.

(** The same for two optional Numbers. *)
Ltac option_float_neq :=
  let H := fresh in
  intro H;
  apply (f_equal (fun o => match o with Some x => Prim2SF x | None => S754_nan end)) in H;
  vm_compute in H; discriminate.

(** * Properties of the flow store and of the events *)

Lemma FlowState_eqb_eq (a b : FlowState.t) : FlowState.eqb a b = true -> a = b.
Proof. destruct a, b; simpl; congruence. Qed.

(** ** Shared facts about [endFlow] and [startFlow] *)

(** The guard of [endFlow] in words: [currentFlow] is [null], or it is an
    object whose [name] is missing or empty. *)
Lemma no_flow_spec (s : State) :
  no_flow s = true <->
  (currentFlow s = None \/
   exists f, currentFlow s = Some f /\
             (IFlowItem.name f = None \/ IFlowItem.name f = Some ""%string)).
Proof.
  unfold no_flow. destruct (currentFlow s) as [f|].
  - destruct f as [[n|] st en]; simpl.
    + unfold Js.truthy_string. rewrite negb_involutive. split.
      * intros H. apply String.eqb_eq in H. subst n. right.
        eexists. split; [reflexivity | right; reflexivity].
      * intros [H | [f [H [Hn | Hn]]]]; try discriminate;
          injection H as <-; simpl in Hn; try discriminate.
        injection Hn as ->. reflexivity.
    + split; [ | reflexivity ]. intros _. right.
      eexists. split; [reflexivity | left; reflexivity].
  - split; [intros _; left; reflexivity | reflexivity].
Qed.

(** A name passes the guard exactly when it is a non-empty string. *)
Lemma truthy_prop_spec (p : option string) :
  Js.truthy_prop p = true <-> exists n, p = Some n /\ n <> ""%string.
Proof.
  destruct p as [n|]; simpl.
  - unfold Js.truthy_string. rewrite negb_true_iff. split.
    + intros H. exists n. split; [reflexivity | now apply String.eqb_neq].
    + intros [m [[= <-] H]]. now apply String.eqb_neq.
  - split; [discriminate | intros [n [H _]]; discriminate].
Qed.

Lemma endFlow_no_flow (s : State) (now : Js.number) :
  no_flow s = true -> endFlow now s = s.
Proof.
  unfold no_flow, endFlow. destruct (currentFlow s) as [f|]; [ | reflexivity ].
  intros ->. reflexivity.
Qed.

Lemma endFlow_active (s : State) (now : Js.number) (f : IFlowItem.t) :
  currentFlow s = Some f ->
  Js.truthy_prop (IFlowItem.name f) = true ->
  endFlow now s =
  set_flows
    (flows s ++ [IFlowItem.mk (IFlowItem.name f) (IFlowItem.startTime f) (Some now)])
    (set_currentFlow (Some IFlowItem.empty) s).
Proof.
  intros Hc Hn. unfold endFlow. rewrite Hc, Hn. reflexivity.
Qed.

Lemma no_flow_false (s : State) :
  no_flow s = false ->
  exists f, currentFlow s = Some f /\ Js.truthy_prop (IFlowItem.name f) = true.
Proof.
  unfold no_flow. destruct (currentFlow s) as [f|]; [ | discriminate ].
  intros H. exists f. split; [reflexivity | ].
  now apply negb_false_iff in H.
Qed.

Lemma no_flow_endFlow (s : State) (now : Js.number) :
  no_flow (endFlow now s) = true.
Proof.
  destruct (no_flow s) eqn:E.
  - now rewrite endFlow_no_flow.
  - destruct (no_flow_false s E) as [f [Hc Hn]].
    rewrite (endFlow_active s now f Hc Hn). reflexivity.
Qed.

Lemma endFlow_flowState (s : State) (now : Js.number) :
  flowState (endFlow now s) = flowState s.
Proof.
  unfold endFlow. destruct (currentFlow s) as [f|]; [ | reflexivity ].
  destruct (negb _); reflexivity.
Qed.

(** What [endFlow] does to the list: nothing, or one more entry at its end. *)
Lemma endFlow_flows (s : State) (now : Js.number) :
  flows (endFlow now s) =
  flows s ++
    (if no_flow s then []
     else match currentFlow s with
          | Some f => [IFlowItem.mk (IFlowItem.name f) (IFlowItem.startTime f) (Some now)]
          | None => []
          end).
Proof.
  destruct (no_flow s) eqn:E.
  - rewrite endFlow_no_flow by assumption. now rewrite app_nil_r.
  - destruct (no_flow_false s E) as [f [Hc Hn]].
    rewrite (endFlow_active s now f Hc Hn), Hc. reflexivity.
Qed.

(** ** C3: [endFlow] without and with an active flow *)

(** C3.  When [currentFlow] is absent ([null]) or has a missing or empty
    name, [endFlow] returns the state unchanged.  When it holds a flow with a
    non-empty name, [endFlow] appends a copy of it with [endTime] set to the
    clock reading at the end of [flows], leaves every other property alone and
    clears [currentFlow]: it stores the empty object [{}] there, which does
    not pass the guard any more.  A second [endFlow] right after changes
    nothing, and every entry [endFlow] adds has a non-empty name. *)
Theorem endFlow_contract (s : State) (now : Js.number) :
  ((currentFlow s = None \/
    exists f, currentFlow s = Some f /\
              (IFlowItem.name f = None \/ IFlowItem.name f = Some ""%string)) ->
   endFlow now s = s) /\
  (forall f n,
     currentFlow s = Some f -> IFlowItem.name f = Some n -> n <> ""%string ->
     flows (endFlow now s) =
       flows s ++ [IFlowItem.mk (Some n) (IFlowItem.startTime f) (Some now)] /\
     currentFlow (endFlow now s) = Some IFlowItem.empty /\
     no_flow (endFlow now s) = true /\
     endFlow now s = set_flows (flows (endFlow now s))
                       (set_currentFlow (currentFlow (endFlow now s)) s)) /\
  (forall later, endFlow later (endFlow now s) = endFlow now s) /\
  (forall g, In g (flows (endFlow now s)) ->
     In g (flows s) \/ exists n, IFlowItem.name g = Some n /\ n <> ""%string).
Proof.
  repeat split.
  - intros H. apply endFlow_no_flow. now apply no_flow_spec.
  - rewrite (endFlow_active s now f) by
      (try assumption; apply truthy_prop_spec; eauto).
    simpl. now rewrite H0.
  - rewrite (endFlow_active s now f) by
      (try assumption; apply truthy_prop_spec; eauto).
    reflexivity.
  - apply no_flow_endFlow.
  - rewrite (endFlow_active s now f) by
      (try assumption; apply truthy_prop_spec; eauto).
    reflexivity.
  - intros later. apply endFlow_no_flow, no_flow_endFlow.
  - intros g Hg. rewrite endFlow_flows in Hg. apply in_app_or in Hg.
    destruct Hg as [Hg | Hg]; [now left | right].
    destruct (no_flow s) eqn:E; [contradiction | ].
    destruct (no_flow_false s E) as [f [Hc Hn]]. rewrite Hc in Hg.
    destruct Hg as [<- | []]. simpl. now apply truthy_prop_spec.
Qed.

(** C3 at the default state (no flow) and at a state with "a" running. *)
Lemma endFlow_contract_witness :
  endFlow 4000%float DEFAULT_STATE = DEFAULT_STATE /\
  flows (endFlow 4000%float flowing_a) =
    [IFlowItem.mk (Some "a"%string) (Some 200%float) (Some 4000%float)] /\
  currentFlow (endFlow 4000%float flowing_a) = Some IFlowItem.empty /\
  no_flow (endFlow 4000%float flowing_a) = true.
Proof.
  split.
  - apply (proj1 (endFlow_contract DEFAULT_STATE 4000%float)).
    left. reflexivity.
  - destruct (proj1 (proj2 (endFlow_contract flowing_a 4000%float))
                _ "a"%string eq_refl eq_refl) as [H1 [H2 [H3 _]]].
    + discriminate.
    + split; [exact H1 | split; [exact H2 | exact H3]].
Defined.

(** ** C1: [startFlow] while a flow is active *)

(** C1, as the code has it.  [startFlow] does not look at the current flow:
    whatever [currentFlow] was, it becomes the new object with the new name
    and the new clock reading, and nothing else changes.  [handleFlowSubmit]
    calls it whenever the input is not empty, so a second submission replaces
    the first flow, whose [startTime] survives only when the clock reads the
    same value. *)
Theorem startFlow_replaces_current (s : State) (taskName : string) (now : Js.number) :
  startFlow taskName now s =
    set_currentFlow (Some (IFlowItem.mk (Some taskName) (Some now) None)) s /\
  currentStart (startFlow taskName now s) = Some now /\
  flows (startFlow taskName now s) = flows s /\
  (forall a, state a = s -> flowInput s <> ""%string ->
     currentFlow (state (handleFlowSubmit now a)) =
       Some (IFlowItem.mk (Some (flowInput s)) (Some now) None) /\
     flows (state (handleFlowSubmit now a)) = flows s).
Proof.
  repeat split.
  - unfold handleFlowSubmit. subst s.
    destruct (flowInput (state a)) eqn:E; [contradiction | reflexivity].
  - unfold handleFlowSubmit. subst s.
    destruct (flowInput (state a)) eqn:E; [contradiction | reflexivity].
Qed.

(** C1 at a state with "a" running and "b" typed into the prompt. *)
Lemma startFlow_replaces_current_witness :
  currentFlow (state (handleFlowSubmit 300%float
                        (mk (set_flowInput "b"%string flowing_a) []))) =
    Some (IFlowItem.mk (Some "b"%string) (Some 300%float) None).
Proof.
  apply (proj2 (proj2 (proj2
           (startFlow_replaces_current
              (set_flowInput "b"%string flowing_a) "b"%string 300%float)))
           (mk (set_flowInput "b"%string flowing_a) []) eq_refl).
  discriminate.
Defined.

(** C1 fails as stated: in a state the program reaches, with a flow active,
    a second submission is possible and changes the [startTime] of the
    current flow. *)
Lemma startFlow_twice_counterexample :
  ~ (forall a now a',
       reachable a -> no_flow (state a) = false ->
       step a (FlowSubmit now) = Some a' ->
       currentStart (state a') = currentStart (state a)).
Proof.
  intros H.
  specialize (H (after first_submit) 300%float
                (handle (FlowSubmit 300%float) (after first_submit))).
  assert (R : reachable (after first_submit)) by (exists first_submit; reflexivity).
  specialize (H R eq_refl eq_refl).
  revert H. vm_compute. option_float_neq.
Qed.

(** ** What one event does to [currentFlow] and to [flows] *)

Lemma doTranistion_state (next : FlowState.t) (time : Js.number) (save : bool) (a : App.t) :
  state (doTranistion next time save a) =
  set_inTransition true (set_transitionTime time (state a)).
Proof. reflexivity. Qed.

(** [flows] after the handler of an event, by event. *)
Lemma handle_flows (ev : Event) (a : App.t) :
  flows (state (handle ev a)) =
  match ev with
  | ResetClick => []
  | PauseFlowClick now | EndClick now _ => flows (endFlow now (state a))
  | _ => flows (state a)
  end.
Proof.
  destruct ev; simpl; try reflexivity.
  - unfold handleFlowSubmit. destruct (String.length _ =? 0)%nat; reflexivity.
  - destruct (nth_error (timers a) i); reflexivity.
Qed.

(** [currentFlow] after the handler of an event, by event. *)
Lemma handle_currentFlow (ev : Event) (a : App.t) :
  currentFlow (state (handle ev a)) =
  match ev with
  | ResetClick => None
  | PauseFlowClick now | EndClick now _ => currentFlow (endFlow now (state a))
  | FlowSubmit now =>
      if (String.length (flowInput (state a)) =? 0)%nat then currentFlow (state a)
      else Some (IFlowItem.mk (Some (flowInput (state a))) (Some now) None)
  | _ => currentFlow (state a)
  end.
Proof.
  destruct ev; simpl; try reflexivity.
  - unfold handleFlowSubmit. destruct (String.length _ =? 0)%nat; reflexivity.
  - destruct (nth_error (timers a) i); reflexivity.
Qed.

Lemma step_flows (a a' : App.t) (ev : Event) :
  step a ev = Some a' -> is_reset ev = false ->
  exists added, flows (state a') = flows (state a) ++ added.
Proof.
  unfold step. destruct (rendered ev a); [ | discriminate ].
  intros [= <-] Hr. rewrite handle_flows.
  destruct ev; try discriminate;
    try (exists []; now rewrite app_nil_r);
    rewrite endFlow_flows; eexists; reflexivity.
Qed.

Lemma run_flows (evs : list Event) :
  forall a a', run a evs = Some a' -> no_reset evs = true ->
  exists added, flows (state a') = flows (state a) ++ added.
Proof.
  induction evs as [|ev evs IH]; intros a a'; simpl.
  - intros [= <-] _. exists []. now rewrite app_nil_r.
  - destruct (step a ev) as [a1|] eqn:E; [ | discriminate ].
    intros Hrun Hn. apply andb_true_iff in Hn. destruct Hn as [Hev Hevs].
    apply negb_true_iff in Hev.
    destruct (step_flows a a1 ev E Hev) as [l1 H1].
    destruct (IH a1 a' Hrun Hevs) as [l2 H2].
    exists (l1 ++ l2). now rewrite H2, H1, app_assoc.
Qed.

Lemma endFlow_shape (s : State) (now : Js.number) :
  current_shape (currentFlow s) -> current_shape (currentFlow (endFlow now s)).
Proof.
  intros H. destruct (no_flow s) eqn:E.
  - now rewrite endFlow_no_flow.
  - destruct (no_flow_false s E) as [f [Hc Hn]].
    rewrite (endFlow_active s now f Hc Hn). right. left. reflexivity.
Qed.

Lemma Forall_remove_nth {A : Type} (P : A -> Prop) (i : nat) (l : list A) :
  Forall P l -> Forall P (remove_nth i l).
Proof.
  intros H. revert i. induction H as [|x l Hx Hl IH]; intros [|i]; simpl;
    auto using Forall_nil, Forall_cons.
Qed.

Lemma invariant_initial : invariant initial.
Proof.
  repeat split; [left; reflexivity | constructor].
Qed.

Lemma invariant_step (a a' : App.t) (ev : Event) :
  invariant a -> step a ev = Some a' -> invariant a'.
Proof.
  intros [Hs [Ht Hstart]]. unfold step.
  destruct (rendered ev a) eqn:R; [ | discriminate ]. intros [= <-].
  split; [ | split ].
  - rewrite handle_currentFlow.
    destruct ev; try assumption; try (now apply endFlow_shape).
    + destruct (String.length (flowInput (state a)) =? 0)%nat eqn:L; [assumption | ].
      right. right. eexists. eexists. split; [ | reflexivity ].
      intros Hempty. rewrite Hempty in L. discriminate.
    + left. reflexivity.
  - destruct ev; simpl; try assumption;
      try (apply Forall_app; split; [assumption | repeat constructor; discriminate]).
    + unfold handleFlowSubmit.
      destruct (String.length (flowInput (state a)) =? 0)%nat; [assumption | ].
      apply Forall_app; split; [assumption | repeat constructor; discriminate].
    + destruct (nth_error (timers a) i); [ | assumption ].
      now apply Forall_remove_nth.
  - unfold rendered in R. cbv zeta in R.
    destruct ev; simpl; rewrite ?endFlow_flowState;
      try (intros F; apply FlowState_eqb_eq in R; congruence).
    + intros _. now apply Hstart, FlowState_eqb_eq.
    + unfold handleFlowSubmit.
      destruct (String.length (flowInput (state a)) =? 0)%nat; simpl;
        intros F; apply FlowState_eqb_eq in R; congruence.
    + intros F. rewrite F in R. discriminate.
    + destruct (nth_error (timers a) i) as [tm|] eqn:N; simpl.
      * intros F. apply nth_error_In in N.
        rewrite Forall_forall in Ht. now apply Ht in N.
      * assumption.
Qed.

Lemma invariant_run (evs : list Event) :
  forall a a', invariant a -> run a evs = Some a' -> invariant a'.
Proof.
  induction evs as [|ev evs IH]; intros a a' Ha; simpl.
  - now intros [= <-].
  - destruct (step a ev) as [a1|] eqn:E; [ | discriminate ].
    apply IH. now apply (invariant_step a a1 ev).
Qed.

Lemma invariant_reachable (a : App.t) : reachable a -> invariant a.
Proof.
  intros [evs H]. now apply (invariant_run evs initial a invariant_initial).
Qed.

(** ** C4: what [currentFlow] holds after [endFlow] *)

(** C4, as the code has it.  When [endFlow] ends a flow it stores the empty
    object [{}] in [currentFlow], not [null]; the guard of [endFlow] takes
    [{}] for "no flow".  When the guard holds already, [currentFlow] is left
    as it is.  In every state the component reaches from the default one,
    [currentFlow] is [null], [{}] or a flow in progress, and it is [null] on
    the start screen. *)
Theorem currentFlow_after_endFlow :
  (forall s now, no_flow s = false ->
     currentFlow (endFlow now s) = Some IFlowItem.empty) /\
  (forall s now, no_flow s = true ->
     currentFlow (endFlow now s) = currentFlow s) /\
  (forall s now, no_flow (endFlow now s) = true) /\
  (forall a, reachable a -> current_shape (currentFlow (state a))) /\
  (forall a, reachable a -> flowState (state a) = FlowState.Start ->
     currentFlow (state a) = None).
Proof.
  split; [ | split; [ | split; [ | split ] ] ].
  - intros s now E. destruct (no_flow_false s E) as [f [Hc Hn]].
    now rewrite (endFlow_active s now f Hc Hn).
  - intros s now E. now rewrite endFlow_no_flow.
  - intros s now. apply no_flow_endFlow.
  - intros a R. apply (invariant_reachable a R).
  - intros a R. apply (invariant_reachable a R).
Qed.

(** C4 at a state with "a" running, at the default state, and at the end
    of a day with one flow. *)
Lemma currentFlow_after_endFlow_witness :
  currentFlow (endFlow 4000%float flowing_a) = Some IFlowItem.empty /\
  currentFlow (endFlow 4000%float DEFAULT_STATE) = None /\
  current_shape (currentFlow (state (after one_flow_day))).
Proof.
  split; [ | split ].
  - apply (proj1 currentFlow_after_endFlow flowing_a 4000%float). reflexivity.
  - apply (proj1 (proj2 currentFlow_after_endFlow) DEFAULT_STATE 4000%float).
    reflexivity.
  - apply (proj1 (proj2 (proj2 (proj2 currentFlow_after_endFlow)))).
    exists one_flow_day. reflexivity.
Defined.

(** C4 fails as stated.  After a pause ends the flow, [currentFlow] is not
    absent; and right after a submission the prompt is still the screen while
    [currentFlow] already holds the new flow. *)
Lemma currentFlow_absent_counterexample :
  ~ (forall a now a',
       reachable a -> step a (PauseFlowClick now) = Some a' ->
       currentFlow (state a') = None) /\
  ~ (forall a,
       reachable a -> flowState (state a) <> FlowState.InFlow ->
       currentFlow (state a) = None).
Proof.
  split; intros H.
  - specialize (H (after (first_submit ++ [Timeout 0])) 4000%float
                  (handle (PauseFlowClick 4000%float)
                     (after (first_submit ++ [Timeout 0])))).
    assert (R : reachable (after (first_submit ++ [Timeout 0])))
      by (exists (first_submit ++ [Timeout 0]); reflexivity).
    specialize (H R eq_refl). discriminate H.
  - specialize (H (after first_submit)).
    assert (R : reachable (after first_submit))
      by (exists first_submit; reflexivity).
    specialize (H R). discriminate H. discriminate.
Qed.

(** ** C9: [flows] grows at its end, except on "start over" *)

(** C9, as the code has it.  Over any sequence of events without a click on
    "Start over", the list [flows] only grows, and it grows at its end: the
    old list is a prefix of the new one, so entries stay in the order in
    which their flows were ended.  [endFlow] appends nothing when no flow is
    active.  A click on "Start over" empties the list. *)
Theorem flows_append_only :
  (forall a evs a',
     run a evs = Some a' -> no_reset evs = true ->
     exists added, flows (state a') = flows (state a) ++ added) /\
  (forall a evs a',
     run a evs = Some a' -> no_reset evs = true ->
     (List.length (flows (state a)) <= List.length (flows (state a')))%nat) /\
  (forall s now, no_flow s = true -> flows (endFlow now s) = flows s) /\
  (forall a, flows (state (handle ResetClick a)) = []).
Proof.
  split; [ | split; [ | split ] ].
  - intros a evs a' Hrun Hn. exact (run_flows evs a a' Hrun Hn).
  - intros a evs a' Hrun Hn.
    destruct (run_flows evs a a' Hrun Hn) as [added ->].
    rewrite length_app. lia.
  - intros s now E. now rewrite endFlow_no_flow.
  - reflexivity.
Qed.

(** C9 over a day with one flow, and at the default state. *)
Lemma flows_append_only_witness :
  (exists added,
     flows (state (after one_flow_day)) = flows (state initial) ++ added) /\
  flows (endFlow 4000%float DEFAULT_STATE) = flows DEFAULT_STATE.
Proof.
  split.
  - apply (proj1 flows_append_only initial one_flow_day); reflexivity.
  - apply (proj1 (proj2 (proj2 flows_append_only))). reflexivity.
Defined.

(** C9 fails as stated: after the day above, whose summary lists one flow, a
    click on "Start over" leaves a shorter list. *)
Lemma flows_length_counterexample :
  ~ (forall a evs a',
       reachable a -> run a evs = Some a' ->
       (List.length (flows (state a)) <= List.length (flows (state a')))%nat).
Proof.
  intros H.
  specialize (H (after one_flow_day) [ResetClick]
                (handle ResetClick (after one_flow_day))).
  assert (R : reachable (after one_flow_day))
    by (exists one_flow_day; reflexivity).
  specialize (H R eq_refl). vm_compute in H. lia.
Qed.

(** * Properties of the summary and of the time helpers *)

(** The entry the summary draws for the [i]-th flow. *)
Lemma FlowSummary_items_nth (LocalTZA : Z -> Z) (s : State) (i : nat) :
  nth_error (items (FlowSummary LocalTZA s)) i =
  option_map (FlowSummary_flow s) (nth_error (flows s) i).
Proof. apply nth_error_map. Qed.

(** ** Division by a zero total *)

(** A Number that compares equal to 0 is one of the two zeros. *)
Lemma eqb_zero_inv (t : Js.number) :
  (t =? 0)%float = true -> exists b, Prim2SF t = S754_zero b.
Proof.
  rewrite FloatAxioms.eqb_spec.
  destruct (Prim2SF t) as [b|b| |b m e]; [eauto | | | ];
    try destruct b; vm_compute; discriminate.
Qed.

(** A Number whose specification is NaN or an infinity is not finite. *)
Lemma not_finite_of_spec (y : Js.number) :
  Prim2SF y = S754_nan \/ (exists b, Prim2SF y = S754_infinity b) ->
  is_finite y = false.
Proof.
  intros H. rewrite <- (SF2Prim_Prim2SF y).
  destruct H as [-> | [[|] ->]]; reflexivity.
Qed.

(** [getOffset] with a zero total: 0/0 is NaN, anything else over 0 is an
    infinity or NaN, and the product with 100 stays so. *)
Lemma getOffset_zero_total (startTime endTime totalTime : Js.number) :
  (totalTime =? 0)%float = true ->
  is_finite (getOffset startTime endTime totalTime) = false.
Proof.
  intros Ht. destruct (eqb_zero_inv totalTime Ht) as [b Hb].
  apply not_finite_of_spec. unfold getOffset.
  rewrite FloatAxioms.mul_spec, FloatAxioms.div_spec, Hb.
  destruct (Prim2SF (endTime - startTime)) as [sx|sx| |sx mx ex].
  - left. reflexivity.
  - right. eexists. reflexivity.
  - left. reflexivity.
  - right. eexists. reflexivity.
Qed.

(** C2, as the code has it.  Nothing guards the division: when
    [endTime - startTime] is zero, both offsets of every entry drawn for a
    flow are the result of dividing by that zero, hence NaN or an infinity
    and never 0.  Only the entry of the whole day has its offsets set to 0,
    whatever the total is. *)
Theorem zero_total_offsets (LocalTZA : Z -> Z) (s : State) :
  (leftOffset (total (FlowSummary LocalTZA s)) = 0%float /\
   rightOffset (total (FlowSummary LocalTZA s)) = 0%float) /\
  ((endTime s - startTime s =? 0)%float = true ->
   forall i p,
     nth_error (items (FlowSummary LocalTZA s)) i = Some (Some p) ->
     is_finite (leftOffset p) = false /\ is_finite (rightOffset p) = false).
Proof.
  split; [split; reflexivity | ].
  intros Ht i p. rewrite FlowSummary_items_nth.
  destruct (nth_error (flows s) i) as [flow|]; [ | discriminate ].
  cbn [option_map]. unfold FlowSummary_flow. destruct (_ <? _)%float; [discriminate | ].
  intros [= <-]. cbn [leftOffset rightOffset]. split; now apply getOffset_zero_total.
Qed.

(** C2 at the end of the day whose clock readings are all 100. *)
Lemma zero_total_offsets_witness :
  (endTime (state (after instant_day)) -
   startTime (state (after instant_day)) =? 0)%float = true /\
  nth_error (items (FlowSummary (fun _ => 0) (state (after instant_day)))) 0 =
    Some (Some (mkProps nan nan (Some "a"%string) 0%float None)) /\
  is_finite (leftOffset (mkProps nan nan (Some "a"%string) 0%float None)) = false /\
  is_finite (rightOffset (mkProps nan nan (Some "a"%string) 0%float None)) = false.
Proof.
  assert (Ht : (endTime (state (after instant_day)) -
                startTime (state (after instant_day)) =? 0)%float = true)
    by (vm_compute; reflexivity).
  assert (Hn : nth_error (items (FlowSummary (fun _ => 0) (state (after instant_day)))) 0 =
               Some (Some (mkProps nan nan (Some "a"%string) 0%float None)))
    by (vm_compute; reflexivity).
  split; [exact Ht | split; [exact Hn | ] ].
  exact (proj2 (zero_total_offsets (fun _ => 0) (state (after instant_day)))
           Ht 0%nat _ Hn).
Defined.

(** C2 fails as stated: at the end of the day above the total is zero, one
    flow is drawn, and its offsets are NaN, not 0. *)
Lemma zero_total_counterexample :
  ~ (forall LocalTZA a i p,
       reachable a ->
       (endTime (state a) - startTime (state a) =? 0)%float = true ->
       nth_error (items (FlowSummary LocalTZA (state a))) i = Some (Some p) ->
       leftOffset p = 0%float /\ rightOffset p = 0%float).
Proof.
  intros H.
  assert (R : reachable (after instant_day))
    by (exists instant_day; vm_compute; reflexivity).
  assert (Ht : (endTime (state (after instant_day)) -
                startTime (state (after instant_day)) =? 0)%float = true)
    by (vm_compute; reflexivity).
  assert (Hn : nth_error (items (FlowSummary (fun _ => 0) (state (after instant_day)))) 0 =
               Some (Some (mkProps nan nan (Some "a"%string) 0%float None)))
    by (vm_compute; reflexivity).
  destruct (H (fun _ => 0) (after instant_day) 0%nat _ R Ht Hn) as [H0 _].
  revert H0. cbn [leftOffset]. float_neq.
Qed.

(** ** C5: the filter of the summary *)

(** A flow is left out by [FlowSummary] exactly when its duration is
    strictly below the threshold. *)
Lemma FlowSummary_flow_None (s : State) (flow : IFlowItem.t) :
  FlowSummary_flow s flow = None <->
  (duration_seconds flow <? ToNumber (filterFlowLength s) * SECONDS_IN_MINUTE)%float = true.
Proof.
  unfold FlowSummary_flow, duration_seconds.
  destruct (_ <? _)%float; split; intros H; try reflexivity; discriminate.
Qed.

(** C5.  The entry of the [i]-th completed flow is missing from what the
    summary draws exactly when [flow.endTime - flow.startTime] is strictly
    less than [filterFlowLength * 60].  With the filter at 60, a flow of 3600
    seconds is drawn and a flow of 3599 seconds is not. *)
Theorem summary_filter_strict (LocalTZA : Z -> Z) (s : State) (i : nat) (flow : IFlowItem.t) :
  nth_error (flows s) i = Some flow ->
  (nth_error (items (FlowSummary LocalTZA s)) i = Some None <->
   (duration_seconds flow <? ToNumber (filterFlowLength s) * SECONDS_IN_MINUTE)%float = true) /\
  (ToNumber (filterFlowLength s) = 60%float ->
   duration_seconds flow = 3600%float ->
   exists p, nth_error (items (FlowSummary LocalTZA s)) i = Some (Some p)) /\
  (ToNumber (filterFlowLength s) = 60%float ->
   duration_seconds flow = 3599%float ->
   nth_error (items (FlowSummary LocalTZA s)) i = Some None).
Proof.
  intros Hi. rewrite FlowSummary_items_nth, Hi. cbn [option_map].
  split; [ | split ].
  - rewrite <- FlowSummary_flow_None. split; [now intros [= ->] | now intros ->].
  - intros Hf Hd.
    destruct (FlowSummary_flow s flow) as [p|] eqn:E; [now exists p | ].
    apply FlowSummary_flow_None in E. rewrite Hf, Hd in E.
    vm_compute in E. discriminate.
  - intros Hf Hd. f_equal. apply FlowSummary_flow_None.
    rewrite Hf, Hd. vm_compute. reflexivity.
Qed.

(** C5 at the two flows of 3600 and 3599 seconds. *)
Lemma summary_filter_strict_witness :
  (exists p, nth_error (items (FlowSummary (fun _ => 0) boundary_summary)) 0 = Some (Some p)) /\
  nth_error (items (FlowSummary (fun _ => 0) boundary_summary)) 1 = Some None.
Proof.
  split.
  - apply (proj1 (proj2 (summary_filter_strict (fun _ => 0) boundary_summary 0%nat
                           (IFlowItem.mk (Some "a"%string) (Some 1000%float) (Some 4600%float))
                           eq_refl))).
    + reflexivity.
    + vm_compute. reflexivity.
  - apply (proj2 (proj2 (summary_filter_strict (fun _ => 0) boundary_summary 1%nat
                           (IFlowItem.mk (Some "b"%string) (Some 5000%float) (Some 8599%float))
                           eq_refl))).
    + reflexivity.
    + vm_compute. reflexivity.
Defined.

(** ** C6: the two offsets of an entry *)

(** C6.  Every entry drawn for a flow has
    [leftOffset = (flow.startTime - startTime) / (endTime - startTime) * 100]
    and
    [rightOffset = (endTime - flow.endTime) / (endTime - startTime) * 100].
    For the day from 0 to 7200 with a flow from 1800 to 3600 they are 25 and
    50. *)
Theorem summary_offsets :
  (forall LocalTZA s i p,
     nth_error (items (FlowSummary LocalTZA s)) i = Some (Some p) ->
     exists flow,
       nth_error (flows s) i = Some flow /\
       leftOffset p =
         ((Js.ToNumber_prop (IFlowItem.startTime flow) - startTime s)
          / (endTime s - startTime s) * 100)%float /\
       rightOffset p =
         ((endTime s - Js.ToNumber_prop (IFlowItem.endTime flow))
          / (endTime s - startTime s) * 100)%float) /\
  getOffset 0%float 1800%float (7200 - 0)%float = 25%float /\
  getOffset 3600%float 7200%float (7200 - 0)%float = 50%float /\
  option_map (fun p => (leftOffset p, rightOffset p))
    (FlowSummary_flow (state (after two_hour_day))
       (IFlowItem.mk (Some "a"%string) (Some 1800%float) (Some 3600%float))) =
  Some (25%float, 50%float).
Proof.
  split; [ | repeat split; vm_compute; reflexivity ].
  intros tz s i p. rewrite FlowSummary_items_nth.
  destruct (nth_error (flows s) i) as [flow|]; [ | discriminate ].
  cbn [option_map]. unfold FlowSummary_flow.
  destruct (_ <? _)%float; [discriminate | ].
  intros [= <-]. exists flow. repeat split.
Qed.

(** C6 at the end of the two-hour day. *)
Lemma summary_offsets_witness :
  exists flow,
    nth_error (flows (state (after two_hour_day))) 0 = Some flow /\
    25%float =
      ((Js.ToNumber_prop (IFlowItem.startTime flow) - startTime (state (after two_hour_day)))
       / (endTime (state (after two_hour_day)) - startTime (state (after two_hour_day)))
       * 100)%float /\
    50%float =
      ((endTime (state (after two_hour_day)) - Js.ToNumber_prop (IFlowItem.endTime flow))
       / (endTime (state (after two_hour_day)) - startTime (state (after two_hour_day)))
       * 100)%float.
Proof.
  assert (Hn : nth_error (items (FlowSummary (fun _ => 0) (state (after two_hour_day)))) 0 =
               Some (Some (mkProps 25%float 50%float (Some "a"%string) 30%float None)))
    by (vm_compute; reflexivity).
  exact (proj1 summary_offsets (fun _ => 0) (state (after two_hour_day)) 0%nat _ Hn).
Defined.

(** ** C7: seconds to minutes *)

(** The floor of [n/d + 1/2], as bounds on the rational [n/d]. *)
Lemma half_up_bounds (n d : Z) :
  0 < d ->
  (inject_Z (Js.half_up n d) - (1 # 2) <= n # Z.to_pos d)%Q /\
  (n # Z.to_pos d < inject_Z (Js.half_up n d) + (1 # 2))%Q.
Proof.
  intros Hd.
  assert (H1 := Z.mul_div_le (2 * n + d) (2 * d) ltac:(lia)).
  assert (H2 := Z.mul_succ_div_gt (2 * n + d) (2 * d) ltac:(lia)).
  fold (Js.half_up n d) in H1, H2. revert H1 H2.
  generalize (Js.half_up n d). intros k H1 H2.
  unfold Qle, Qlt, Qminus, Qplus, Qopp, inject_Z. simpl.
  rewrite !Z2Pos.id by assumption. rewrite Z.mul_succ_r in H2. split; lia.
Qed.

(** The integer [Math.round] picks for a finite Number [x] is the closest
    one, the upper one on a tie: [r - 1/2 <= x < r + 1/2]. *)
Lemma round_half_up_nearest (x : Js.number) (r : Z) :
  Js.round_half_up x = Some r ->
  exists q, Js.to_Q x = Some q /\
            (inject_Z r - (1 # 2) <= q)%Q /\ (q < inject_Z r + (1 # 2))%Q.
Proof.
  unfold Js.round_half_up, Js.to_Q.
  destruct (Prim2SF x) as [b|b| |s m e]; try discriminate.
  destruct (0 <=? e) eqn:E; [discriminate | ].
  apply Z.leb_gt in E. intros [= <-].
  eexists. split; [reflexivity | ].
  apply half_up_bounds. apply Z.pow_pos_nonneg; lia.
Qed.

(** When [Math.round] returns its argument, the argument is NaN, an
    infinity, or an integer already. *)
Lemma round_half_up_None (x : Js.number) :
  Js.round_half_up x = None ->
  Js.to_Q x = None \/ exists z, Js.to_Q x = Some (inject_Z z).
Proof.
  unfold Js.round_half_up, Js.to_Q.
  destruct (Prim2SF x) as [b|b| |s m e]; intros H.
  - right. exists 0. reflexivity.
  - now left.
  - now left.
  - destruct (0 <=? e); [ | discriminate ]. right. eexists. reflexivity.
Qed.

(** C7.  [secondsToMinutes] is [Math.round] of the quotient by 60.  When
    [Math.round] has to round (the quotient [m * 2^e] has [e < 0]), the result
    is the integer [r] with [r - 1/2 <= quotient < r + 1/2]: the nearest
    whole minute, the upper one for a half.  Otherwise the quotient is NaN,
    an infinity or an integer, and it is returned as it is.  90 seconds are
    2 minutes and 89 seconds are 1 minute. *)
Theorem secondsToMinutes_rounds_half_up :
  (forall seconds,
     secondsToMinutes seconds = Js.Math_round (seconds / 60)%float) /\
  (forall seconds r,
     Js.round_half_up (seconds / 60)%float = Some r ->
     (exists q, Js.to_Q (seconds / 60)%float = Some q /\
                (inject_Z r - (1 # 2) <= q)%Q /\ (q < inject_Z r + (1 # 2))%Q) /\
     secondsToMinutes seconds =
       if r =? 0 then (if get_sign (seconds / 60)%float then neg_zero else zero)
       else Js.of_Z r) /\
  (forall seconds,
     Js.round_half_up (seconds / 60)%float = None ->
     secondsToMinutes seconds = (seconds / 60)%float /\
     (Js.to_Q (seconds / 60)%float = None \/
      exists z, Js.to_Q (seconds / 60)%float = Some (inject_Z z))) /\
  secondsToMinutes 90%float = 2%float /\
  secondsToMinutes 89%float = 1%float.
Proof.
  split; [reflexivity | ].
  split; [ | split; [ | split; vm_compute; reflexivity ] ].
  - intros seconds r H. split; [now apply round_half_up_nearest | ].
    unfold secondsToMinutes, Js.Math_round, SECONDS_IN_MINUTE. now rewrite H.
  - intros seconds H. split; [ | now apply round_half_up_None ].
    unfold secondsToMinutes, Js.Math_round, SECONDS_IN_MINUTE. now rewrite H.
Qed.

(** C7 at 90 seconds, where the quotient 1.5 is rounded, and at 0 seconds,
    where it is returned as it is. *)
Lemma secondsToMinutes_rounds_half_up_witness :
  (exists q, Js.to_Q (90 / 60)%float = Some q /\
             (inject_Z 2 - (1 # 2) <= q)%Q /\ (q < inject_Z 2 + (1 # 2))%Q) /\
  secondsToMinutes 0%float = (0 / 60)%float.
Proof.
  split.
  - apply (proj1 (proj2 secondsToMinutes_rounds_half_up) 90%float 2).
    vm_compute. reflexivity.
  - apply (proj1 (proj2 (proj2 secondsToMinutes_rounds_half_up)) 0%float).
    vm_compute. reflexivity.
Defined.

(** ** C10: the clock time shown *)

(** For a valid date, [displayTimeStamp] is the hour [12] when [hours] is 0
    and [hours % 12] otherwise, a colon, the minutes padded to two digits,
    and "pm" from hour 12 on. *)
Lemma displayTimeStamp_valid (LocalTZA : Z -> Z) (time : Js.number) (h m : Z) :
  Js.getHours LocalTZA (Js.new_Date (time * 1000)%float) = Some h ->
  Js.getMinutes LocalTZA (Js.new_Date (time * 1000)%float) = Some m ->
  displayTimeStamp LocalTZA time =
  String.append
    (String.append
       (String.append (Js.ToString_int (Some (if h =? 0 then 12 else Z.rem h 12))) ":")
       (if m <? 10 then String.append "0" (Js.ToString_int (Some m))
        else Js.ToString_int (Some m)))
    (if 12 <=? h then "pm"%string else "am"%string).
Proof.
  intros Hh Hm. unfold displayTimeStamp. rewrite Hh, Hm. cbn [option_map].
  destruct (h =? 0); reflexivity.
Qed.

(** The hour shown is in 1..12 for every hour of the day but 12, where it
    is 0. *)
Lemma displayed_hour_range (h : Z) :
  0 <= h < 24 ->
  let shown := if h =? 0 then 12 else Z.rem h 12 in
  (h <> 12 -> 1 <= shown <= 12) /\ (h = 12 -> shown = 0).
Proof.
  intros Hh. cbv zeta. split.
  - intros Hn. destruct (h =? 0) eqn:E; [lia | ].
    apply Z.eqb_neq in E. rewrite Z.rem_mod_nonneg by lia.
    assert (h < 12 \/ 12 < h) as [H | H] by lia.
    + rewrite Z.mod_small by lia. lia.
    + replace h with ((h - 12) + 1 * 12) by lia.
      rewrite Z.mod_add by lia. rewrite Z.mod_small by lia. lia.
  - intros ->. reflexivity.
Qed.

(** C10 at noon: on a host whose local time is UTC, 12:00 and 12:30 are
    shown with the hour 0, while midnight and the afternoon are shown as a
    12-hour clock shows them. *)
Theorem displayTimeStamp_noon :
  displayTimeStamp (fun _ => 0) 43200%float = "0:00pm"%string /\
  displayTimeStamp (fun _ => 0) 45000%float = "0:30pm"%string /\
  displayTimeStamp (fun _ => 0) 0%float = "12:00am"%string /\
  displayTimeStamp (fun _ => 0) 47100%float = "1:05pm"%string.
Proof.
  repeat split; vm_compute; reflexivity.
Qed.

(** * Further properties of the events *)

(** ** Predicates *)

(** A completed flow as [interface IFlowItem] declares it: a non-empty name
    and both times. *)
Definition completed (f : IFlowItem.t) : Prop :=
  exists n st en,
    n <> ""%string /\ f = IFlowItem.mk (Some n) (Some st) (Some en).

(** The four calls of [doTranistion] in the source, as the timers they
    schedule. *)
Definition scheduled_by_source (tm : Timer) : Prop :=
  tm = mkTimer 500%float FlowState.FlowPrompt true \/
  tm = mkTimer 500%float FlowState.InFlow true \/
  tm = mkTimer 0%float FlowState.FlowPrompt true \/
  tm = mkTimer 500%float FlowState.FlowSummary false.

(** What the reachable states keep besides [invariant]: the completed flows
    are well formed, the pending timers are those of the source, and the
    transition flag is set only while a timer is pending. *)
Definition timers_and_flows (a : App.t) : Prop :=
  Forall completed (flows (state a)) /\
  Forall scheduled_by_source (timers a) /\
  (inTransition (state a) = true -> timers a <> []).

(** ** Shared facts *)

Lemma endFlow_completed (s : State) (now : Js.number) :
  current_shape (currentFlow s) ->
  Forall completed (flows s) ->
  Forall completed (flows (endFlow now s)).
Proof.
  intros Hs Hf. rewrite endFlow_flows. apply Forall_app. split; [assumption | ].
  destruct (no_flow s) eqn:E; [constructor | ].
  destruct Hs as [Hs | [Hs | [n [t [Hn Hs]]]]]; rewrite Hs in *.
  - constructor.
  - unfold no_flow in E. rewrite Hs in E. discriminate.
  - repeat constructor. exists n, t, now. split; [assumption | reflexivity].
Qed.

Lemma handle_inTransition (ev : Event) (a : App.t) :
  inTransition (state (handle ev a)) =
  match ev with
  | StartClick _ | PauseFlowClick _ | EndClick _ _ => true
  | FlowSubmit _ =>
      if (String.length (flowInput (state a)) =? 0)%nat
      then inTransition (state a) else true
  | ResetClick => false
  | Timeout i =>
      match nth_error (timers a) i with
      | Some _ => false
      | None => inTransition (state a)
      end
  | _ => inTransition (state a)
  end.
Proof.
  destruct ev; try reflexivity.
  - cbn [handle]. unfold handleFlowSubmit.
    destruct (String.length _ =? 0)%nat; reflexivity.
  - cbn [handle]. destruct (nth_error (timers a) i); reflexivity.
Qed.

Lemma handle_timers (ev : Event) (a : App.t) :
  timers (handle ev a) =
  match ev with
  | StartClick _ => timers a ++ [mkTimer 500%float FlowState.FlowPrompt true]
  | FlowSubmit _ =>
      if (String.length (flowInput (state a)) =? 0)%nat then timers a
      else timers a ++ [mkTimer 500%float FlowState.InFlow true]
  | PauseFlowClick _ => timers a ++ [mkTimer 0%float FlowState.FlowPrompt true]
  | EndClick _ _ => timers a ++ [mkTimer 500%float FlowState.FlowSummary false]
  | Timeout i =>
      match nth_error (timers a) i with
      | Some _ => remove_nth i (timers a)
      | None => timers a
      end
  | _ => timers a
  end.
Proof.
  destruct ev; try reflexivity.
  - cbn [handle]. unfold handleFlowSubmit.
    destruct (String.length _ =? 0)%nat; reflexivity.
  - cbn [handle]. destruct (nth_error (timers a) i); reflexivity.
Qed.

Lemma app_not_nil {A : Type} (l : list A) (x : A) : l ++ [x] <> [].
Proof. destruct l; discriminate. Qed.

Lemma timers_and_flows_step (a a' : App.t) (ev : Event) :
  invariant a -> timers_and_flows a -> step a ev = Some a' ->
  timers_and_flows a'.
Proof.
  intros [Hs _] [Hf [Ht Hi]]. unfold step.
  destruct (rendered ev a) eqn:R; [ | discriminate ]. intros [= <-].
  split; [ | split ].
  - rewrite handle_flows.
    destruct ev; try assumption; try (now apply endFlow_completed).
    constructor.
  - rewrite handle_timers. unfold scheduled_by_source.
    destruct ev; try assumption;
      try (apply Forall_app; split; [assumption | repeat constructor; tauto]).
    + destruct (String.length _ =? 0)%nat; [assumption | ].
      apply Forall_app; split; [assumption | repeat constructor; tauto].
    + destruct (nth_error (timers a) i); [ | assumption ].
      now apply Forall_remove_nth.
  - rewrite handle_inTransition, handle_timers.
    destruct ev; try assumption; try (intros _; apply app_not_nil).
    + destruct (String.length _ =? 0)%nat;
        [assumption | intros _; apply app_not_nil].
    + discriminate.
    + destruct (nth_error (timers a) i); [discriminate | assumption].
Qed.

Lemma timers_and_flows_run (evs : list Event) :
  forall a a',
    invariant a -> timers_and_flows a -> run a evs = Some a' ->
    timers_and_flows a'.
Proof.
  induction evs as [|ev evs IH]; intros a a' Hi Ht; cbn [run].
  - now intros [= <-].
  - destruct (step a ev) as [a1|] eqn:E; [ | discriminate ].
    apply IH.
    + now apply (invariant_step a a1 ev).
    + now apply (timers_and_flows_step a a1 ev).
Qed.

Lemma timers_and_flows_reachable (a : App.t) :
  reachable a -> timers_and_flows a.
Proof.
  intros [evs H].
  apply (timers_and_flows_run evs initial a invariant_initial); [ | assumption ].
  repeat split; try constructor. discriminate.
Qed.

(** ** The completed flows are well formed *)

(** In every state the component reaches from the default one, each entry
    of [flows] has a non-empty name, a start time and an end time, so every
    entry the summary draws for a flow carries a non-empty task name. *)
Theorem completed_flows_wellformed (a : App.t) :
  reachable a ->
  Forall completed (flows (state a)) /\
  (forall LocalTZA i p,
     nth_error (items (FlowSummary LocalTZA (state a))) i = Some (Some p) ->
     exists n, taskName p = Some n /\ n <> ""%string).
Proof.
  intros R. destruct (timers_and_flows_reachable a R) as [Hf _].
  split; [assumption | ].
  intros tz i p. rewrite FlowSummary_items_nth.
  destruct (nth_error (flows (state a)) i) as [flow|] eqn:E; [ | discriminate ].
  cbn [option_map]. unfold FlowSummary_flow.
  destruct (_ <? _)%float; [discriminate | ]. intros [= <-]. cbn [taskName].
  apply nth_error_In in E. rewrite Forall_forall in Hf.
  destruct (Hf flow E) as [n [st [en [Hn ->]]]]. exists n. now split.
Qed.

(** The same at the end of the day with one flow. *)
Lemma completed_flows_wellformed_witness :
  Forall completed (flows (state (after one_flow_day))).
Proof.
  apply (completed_flows_wellformed (after one_flow_day)).
  exists one_flow_day. reflexivity.
Defined.

(** ** A transition in progress has its timer *)

(** The transition flag is set only while a timer is pending, and the
    pending timers are those the source schedules. *)
Definition transition_flag_ok (a : App.t) : Prop :=
  (inTransition (state a) = true -> timers a <> []) /\
  Forall scheduled_by_source (timers a).

Lemma transition_flag_step (a a' : App.t) (ev : Event) :
  transition_flag_ok a -> step a ev = Some a' -> transition_flag_ok a'.
Proof.
  intros [Hi Ht]. unfold step.
  destruct (rendered ev a) eqn:R; [ | discriminate ]. intros [= <-].
  split.
  - rewrite handle_inTransition, handle_timers.
    destruct ev; try assumption; try (intros _; apply app_not_nil).
    + destruct (String.length _ =? 0)%nat;
        [assumption | intros _; apply app_not_nil].
    + discriminate.
    + destruct (nth_error (timers a) i); [discriminate | assumption].
  - rewrite handle_timers. unfold scheduled_by_source.
    destruct ev; try assumption;
      try (apply Forall_app; split; [assumption | repeat constructor; tauto]).
    + destruct (String.length _ =? 0)%nat; [assumption | ].
      apply Forall_app; split; [assumption | repeat constructor; tauto].
    + destruct (nth_error (timers a) i); [ | assumption ].
      now apply Forall_remove_nth.
Qed.

(** Over any sequence of events, from any start: if [inTransition] is set
    only while a timer of [doTranistion] is pending and the pending timers
    are among the four the source schedules (500 ms to the prompt, to the
    flow or to the summary, 0 ms back to the prompt, the one to the summary
    being the only one that does not save), then this stays so: whenever the
    flag is set, a timer is pending.  The component constructed with the default
    state starts that way.  A component constructed with a restored state
    object (no timer is pending then) starts that way exactly when the
    restored [inTransition] is false: restored with the flag set, nothing
    is pending that would clear it. *)
Theorem transition_has_timer :
  (forall a0 evs a,
     transition_flag_ok a0 -> run a0 evs = Some a -> transition_flag_ok a) /\
  transition_flag_ok initial /\
  (forall s, transition_flag_ok (App.mk s []) <-> inTransition s = false).
Proof.
  split; [ | split ].
  - intros a0 evs. revert a0.
    induction evs as [|ev evs IH]; intros a0 a H0; cbn [run].
    + now intros [= <-].
    + destruct (step a0 ev) as [a1|] eqn:E; [ | discriminate ].
      apply IH. now apply (transition_flag_step a0 a1 ev).
  - split; [discriminate | constructor].
  - intros s. unfold transition_flag_ok. cbn [state timers]. split.
    + intros [H _]. destruct (inTransition s); [ | reflexivity ].
      exfalso. now apply H.
    + intros H. split; [ | constructor ]. rewrite H. discriminate.
Qed.

(** Right after the first submission of a day that started from the default
    state, while a timer is pending. *)
Lemma transition_has_timer_witness :
  inTransition (state (after first_submit)) = true /\
  timers (after first_submit) <> [].
Proof.
  split; [reflexivity | ].
  assert (Hrun : run initial first_submit = Some (after first_submit))
    by reflexivity.
  apply (proj1 (proj1 transition_has_timer initial first_submit
                  (after first_submit)
                  (proj1 (proj2 transition_has_timer)) Hrun)).
  reflexivity.
Defined.

(** ** The screen changes on a timer only *)

(** No handler changes [flowState] itself: it changes when a pending timer
    fires (to the screen that timer was scheduled for) and on "Start over"
    (to the start screen).  A timer that fires changes nothing but
    [flowState] and [inTransition]. *)
Theorem screen_changes_on_timer (ev : Event) (a : App.t) :
  flowState (state (handle ev a)) =
    match ev with
    | Timeout i =>
        match nth_error (timers a) i with
        | Some tm => nextState tm
        | None => flowState (state a)
        end
    | ResetClick => FlowState.Start
    | _ => flowState (state a)
    end /\
  (forall i,
     ev = Timeout i ->
     state (handle ev a) =
       set_flowState (flowState (state (handle ev a)))
         (set_inTransition (inTransition (state (handle ev a))) (state a))).
Proof.
  split.
  - destruct ev; try reflexivity.
    + cbn [handle]. unfold handleFlowSubmit.
      destruct (String.length _ =? 0)%nat; reflexivity.
    + cbn [handle]. unfold handlePauseFlowClick, doTranistion, setState.
      cbn [state flowState set_inTransition set_transitionTime].
      apply endFlow_flowState.
    + cbn [handle]. unfold handleEndClick, doTranistion, setState.
      cbn [state flowState set_inTransition set_transitionTime set_endTime].
      apply endFlow_flowState.
    + cbn [handle]. destruct (nth_error (timers a) i); reflexivity.
  - intros i ->. cbn [handle].
    destruct (nth_error (timers a) i); [reflexivity | ].
    destruct (state a). reflexivity.
Qed.

(** At the timer that ends the first transition of a day. *)
Lemma screen_changes_on_timer_witness :
  state (handle (Timeout 0) (after [StartClick 100%float])) =
    set_flowState FlowState.FlowPrompt
      (set_inTransition false (state (after [StartClick 100%float]))).
Proof.
  exact (proj2 (screen_changes_on_timer (Timeout 0) (after [StartClick 100%float]))
           0%nat eq_refl).
Defined.

(** ** One flow, from submission to pause *)

(** From the prompt at rest (no timer pending) with a non-empty input,
    submitting at [t1], letting the transition end, pausing at [t2] and
    letting that transition end leads back to the prompt at rest, with
    exactly one more completed flow at the end of [flows]: the typed name,
    started at [t1], ended at [t2].  The day's times, the input and the
    filter are as before. *)
Theorem flow_from_submit_to_pause (a : App.t) (t1 t2 : Js.number) :
  flowState (state a) = FlowState.FlowPrompt ->
  timers a = [] ->
  flowInput (state a) <> ""%string ->
  exists a',
    run a [FlowSubmit t1; Timeout 0; PauseFlowClick t2; Timeout 0] = Some a' /\
    flows (state a') =
      flows (state a) ++
        [IFlowItem.mk (Some (flowInput (state a))) (Some t1) (Some t2)] /\
    currentFlow (state a') = Some IFlowItem.empty /\
    flowState (state a') = FlowState.FlowPrompt /\
    timers a' = [] /\
    inTransition (state a') = false /\
    startTime (state a') = startTime (state a) /\
    endTime (state a') = endTime (state a) /\
    flowInput (state a') = flowInput (state a) /\
    filterFlowLength (state a') = filterFlowLength (state a).
Proof.
  destruct a as [[st en input cur fs fl tr tt flt] tms].
  cbn [state timers flowState flowInput flows startTime endTime filterFlowLength].
  intros -> -> Hin.
  destruct input as [|c rest]; [contradiction | ].
  eexists. split; [reflexivity | ].
  repeat split.
Qed.

(** From the prompt at rest after the day has started, with "a" typed. *)
Lemma flow_from_submit_to_pause_witness :
  exists a',
    run (after [StartClick 100%float; Timeout 0; FlowInputChange "a"%string])
      [FlowSubmit 200%float; Timeout 0; PauseFlowClick 4000%float; Timeout 0] = Some a' /\
    flows (state a') =
      [IFlowItem.mk (Some "a"%string) (Some 200%float) (Some 4000%float)].
Proof.
  destruct (flow_from_submit_to_pause
              (after [StartClick 100%float; Timeout 0; FlowInputChange "a"%string])
              200%float 4000%float eq_refl eq_refl)
    as [a' [Hrun [Hfl _]]].
  - discriminate.
  - exists a'. split; [exact Hrun | exact Hfl].
Defined.

(** ** The summary screen can be left without "Start over" *)

(** The timers of two transitions are not told apart.  From the prompt at
    rest with a non-empty input: "End your flow for today" at [t1]/[t2],
    then a submission at [t3] while the prompt is still shown.  The first
    timer shows the summary; the second one then replaces it by the in-flow
    screen, with a flow in progress and the end of the day already stamped. *)
Theorem summary_left_by_pending_timer (a : App.t) (t1 t2 t3 : Js.number) :
  flowState (state a) = FlowState.FlowPrompt ->
  timers a = [] ->
  flowInput (state a) <> ""%string ->
  exists shown a',
    run a [EndClick t1 t2; FlowSubmit t3; Timeout 0] = Some shown /\
    flowState (state shown) = FlowState.FlowSummary /\
    step shown (Timeout 0) = Some a' /\
    flowState (state a') = FlowState.InFlow /\
    timers a' = [] /\
    currentFlow (state a') =
      Some (IFlowItem.mk (Some (flowInput (state a))) (Some t3) None) /\
    endTime (state a') = t2.
Proof.
  destruct a as [[st en input cur fs fl tr tt flt] tms].
  cbn [state timers flowState flowInput].
  intros -> -> Hin.
  destruct input as [|c rest]; [contradiction | ].
  destruct cur as [[[[|c' rest']|] st' en']|];
    (eexists; eexists;
     split; [reflexivity | ];
     split; [reflexivity | ];
     split; [reflexivity | ];
     repeat split).
Qed.

(** From the prompt at rest after the day has started, with "a" typed. *)
Lemma summary_left_by_pending_timer_witness :
  exists shown a',
    run (after [StartClick 100%float; Timeout 0; FlowInputChange "a"%string])
      [EndClick 300%float 300%float; FlowSubmit 400%float; Timeout 0] = Some shown /\
    flowState (state shown) = FlowState.FlowSummary /\
    step shown (Timeout 0) = Some a' /\
    flowState (state a') = FlowState.InFlow.
Proof.
  destruct (summary_left_by_pending_timer
              (after [StartClick 100%float; Timeout 0; FlowInputChange "a"%string])
              300%float 300%float 400%float eq_refl eq_refl)
    as [shown [a' [H1 [H2 [H3 [H4 _]]]]]].
  - discriminate.
  - exists shown, a'. repeat split; assumption.
Defined.

(** * The duration shown for an entry: [displayTimeSpent] *)

(** ** Host: [Math.floor], [%] and [ToString] on Numbers *)

Module JsNumber.

(** ECMAScript [Math.floor]: NaN, infinities, zeros and integral values are
    returned unchanged; a value in (0, 1) gives +0. *)
Definition Math_floor (x : Js.number) : Js.number :=
  match Prim2SF x with
  | S754_finite s m e =>
      if 0 <=? e then x
      else
        let n := if s then Z.neg m else Z.pos m in
        let r := n / 2 ^ (- e) in
        if r =? 0 then zero else Js.of_Z r
  | _ => x
  end.

(** ECMAScript [Number::remainder], the operator [%]: the result has the
    sign of the dividend and is exact; it is computed here on the two
    Numbers written with a common exponent. *)
Definition remainder (n d : Js.number) : Js.number :=
  match Prim2SF n, Prim2SF d with
  | S754_nan, _ | _, S754_nan => nan
  | S754_infinity _, _ => nan
  | _, S754_infinity _ => n
  | _, S754_zero _ => nan
  | S754_zero _, _ => n
  | S754_finite s1 m1 e1, S754_finite s2 m2 e2 =>
      let e := Z.min e1 e2 in
      let a := (if s1 then Z.neg m1 else Z.pos m1) * 2 ^ (e1 - e) in
      let b := Z.pos m2 * 2 ^ (e2 - e) in
      let r := Z.rem a b in
      if r =? 0 then (if s1 then neg_zero else zero)
      else SF2Prim (binary_normalize prec emax r e false)
  end.

(** ECMAScript [Number::toString] where it needs no digit generation: NaN,
    the zeros, the infinities and the integers below 2^53 in absolute value,
    which are printed as the integer they are.  [None] for every other
    Number (fractions and larger values), whose digits are not modelled. *)
Definition ToString (x : Js.number) : option string :=
  match Prim2SF x with
  | S754_nan => Some "NaN"%string
  | S754_zero _ => Some "0"%string
  | S754_infinity s => Some (if s then "-Infinity" else "Infinity")%string
  | S754_finite s m e =>
      if 0 <=? e then
        let z := Z.pos m * 2 ^ e in
        if z <? 2 ^ 53 then Some (Js.ToString_int (Some (if s then - z else z)))
        else None
      else
        let d := 2 ^ (- e) in
        if Z.pos m mod d =? 0
        then Some (Js.ToString_int (Some (if s then - (Z.pos m / d) else Z.pos m / d)))
        else None
  end.

End JsNumber.

(** [displayTimeSpent]; [None] where a Number to print is outside
    [JsNumber.ToString]. *)
Definition displayTimeSpent (minutes : Js.number) : option string :=
  let hours := JsNumber.Math_floor (minutes / 60)%float in
  let minutesRemaining := JsNumber.remainder minutes 60%float in
  match JsNumber.ToString hours, JsNumber.ToString minutesRemaining with
  | Some h, Some r =>
      Some (String.append
              (String.append (String.append h " hours and ") r)
              " minutes")
  | _, _ => None
  end.

(** What [displayTimeSpent] shows for a whole number of minutes [m]: the
    floor of [m / 60] and the remainder with the sign of [m]. *)
Definition hours_and_minutes (m : Z) : string :=
  String.append
    (String.append
       (String.append (Js.ToString_int (Some (m / 60))) " hours and ")
       (Js.ToString_int (Some (Z.rem m 60))))
    " minutes".

(** [f] holds on the [n] integers from [lo] on. *)
Fixpoint holds_from (f : Z -> bool) (lo : Z) (n : nat) : bool :=
  match n with
  | O => true
  | S k => f lo && holds_from f (lo + 1) k
  end.

Definition displayTimeSpent_agrees (m : Z) : bool :=
  match displayTimeSpent (Js.of_Z m) with
  | Some s => String.eqb s (hours_and_minutes m)
  | None => false
  end.

Lemma holds_from_spec (f : Z -> bool) (n : nat) :
  forall lo, holds_from f lo n = true ->
  forall m, lo <= m < lo + Z.of_nat n -> f m = true.
Proof.
  induction n as [|k IH]; intros lo H m Hm.
  - lia.
  - cbn [holds_from] in H. apply andb_true_iff in H. destruct H as [H0 Hk].
    destruct (Z.eq_dec m lo) as [-> | Hne]; [assumption | ].
    apply (IH (lo + 1) Hk). lia.
Qed.

(** For every whole number of minutes within a day either way,
    [displayTimeSpent] shows the floor of [m / 60] as the hours and [m % 60]
    as the minutes.  From 0 on the two add up to [m] and the minutes are
    below 60.  Below 0 (an interval that ends before it starts) they do not:
    unless [m] is a multiple of 60, hours and minutes add up to [m - 60],
    as in "-2 hours and -30 minutes" for -90. *)
Theorem displayTimeSpent_whole_minutes (m : Z) :
  -1440 <= m <= 1440 ->
  displayTimeSpent (Js.of_Z m) = Some (hours_and_minutes m) /\
  (0 <= m -> 60 * (m / 60) + Z.rem m 60 = m /\ 0 <= Z.rem m 60 < 60) /\
  (m < 0 -> Z.rem m 60 <> 0 -> 60 * (m / 60) + Z.rem m 60 = m - 60).
Proof.
  intros Hm. split; [ | split ].
  - assert (H : holds_from displayTimeSpent_agrees (-1440) (Z.to_nat 2881) = true)
      by (vm_compute; reflexivity).
    assert (Ha := holds_from_spec _ _ _ H m ltac:(lia)).
    unfold displayTimeSpent_agrees in Ha.
    destruct (displayTimeSpent (Js.of_Z m)) as [s|]; [ | discriminate ].
    apply String.eqb_eq in Ha. now subst s.
  - intros H0. rewrite Z.rem_mod_nonneg by lia.
    assert (Hd := Z.div_mod m 60 ltac:(lia)).
    assert (Hb := Z.mod_pos_bound m 60 ltac:(lia)). lia.
  - intros Hneg Hr.
    assert (Hq := Z.quot_rem' m 60).
    assert (Hb := Z.rem_bound_pos_neg m 60 ltac:(lia) ltac:(lia)).
    assert (Hd := Z.div_mod m 60 ltac:(lia)).
    assert (Hmb := Z.mod_pos_bound m 60 ltac:(lia)).
    lia.
Qed.

(** At 90 minutes and at -90 minutes. *)
Lemma displayTimeSpent_whole_minutes_witness :
  displayTimeSpent (Js.of_Z 90) = Some "1 hours and 30 minutes"%string /\
  displayTimeSpent (Js.of_Z (-90)) = Some "-2 hours and -30 minutes"%string.
Proof.
  split.
  - exact (proj1 (displayTimeSpent_whole_minutes 90 ltac:(lia))).
  - exact (proj1 (displayTimeSpent_whole_minutes (-90) ltac:(lia))).
Defined.

(** * Persistence: [saveStateToLocal], the callbacks of [setState], the
      constructor *)

Module Persistence.

Section Host.

(** The host's [JSON.stringify] on the state object, and its [JSON.parse] as
    far as the constructor uses it: the state object a string stands for,
    [None] when [JSON.parse] throws. *)
Variable JSON_stringify : State -> string.
Variable JSON_parse : string -> option State.

(** Web Storage as the source sees it: whether [typeof Storage] is defined,
    and what [localStorage.getItem("state")] returns ([None] for [null]).
    The program uses no other key. *)
Record Storage := mkStorage {
  available : bool;
  item : option string
}.

(** [saveStateToLocal], run when the state object is [s]. *)
Definition saveStateToLocal (s : State) (st : Storage) : Storage :=
  if available st then mkStorage true (Some (JSON_stringify s)) else st.

(** The function [handleEndClick] gives to [setState]: [localStorage.clear()]
    when there is storage. *)
Definition clearStorage (st : Storage) : Storage :=
  if available st then mkStorage true None else st.

(** The functions the source hands to [setState] as its second argument. *)
Inductive Callback :=
| SaveStateToLocal
| ClearStorage.

Definition run_callback (s : State) (st : Storage) (cb : Callback) : Storage :=
  match cb with
  | SaveStateToLocal => saveStateToLocal s st
  | ClearStorage => clearStorage st
  end.

(** The callbacks the handler of an event passes to [setState], in the order
    of its calls: [startFlow] and [endFlow] pass [saveStateToLocal] when they
    get to their [setState], [handleFlowInputChange] always,
    [handleEndClick] passes the clearing function after [endFlow], and the
    function of a timer saves when [saveState] was given. *)
Definition callbacks (ev : Event) (a : App.t) : list Callback :=
  match ev with
  | FlowInputChange _ => [SaveStateToLocal]
  | FlowSubmit _ =>
      if (String.length (flowInput (state a)) =? 0)%nat then []
      else [SaveStateToLocal]
  | PauseFlowClick _ =>
      if no_flow (state a) then [] else [SaveStateToLocal]
  | EndClick _ _ =>
      (if no_flow (state a) then [] else [SaveStateToLocal]) ++ [ClearStorage]
  | Timeout i =>
      match nth_error (timers a) i with
      | Some tm => if saveState tm then [SaveStateToLocal] else []
      | None => []
      end
  | StartClick _ | SliderChange _ | ResetClick => []
  end.

(** The component together with the storage of its page. *)
Record World := mkWorld {
  app : App.t;
  storage : Storage
}.

(** One event.  React applies the updates of a handler and then runs the
    callbacks it was given, in order, so each callback reads the state
    object after all the updates of that handler. *)
Definition step (w : World) (ev : Event) : option World :=
  match App.step (app w) ev with
  | Some a' =>
      Some (mkWorld a'
              (fold_left (run_callback (state a')) (callbacks ev (app w)) (storage w)))
  | None => None
  end.

Fixpoint run (w : World) (evs : list Event) : option World :=
  match evs with
  | [] => Some w
  | ev :: evs =>
      match step w ev with
      | Some w' => run w' evs
      | None => None
      end
  end.

(** The constructor: the state the component starts with.  The field
    initialiser has set [DEFAULT_STATE] before the body runs; [confirm] is
    the answer to the dialog, asked only when a non-empty string is stored.
    [None] when [JSON.parse] throws. *)
Definition constructor (st : Storage) (confirm : bool) : option State :=
  if negb (available st) then Some DEFAULT_STATE
  else
    match item st with
    | Some localStateString =>
        if (0 <? String.length localStateString)%nat then
          if confirm then JSON_parse localStateString else Some DEFAULT_STATE
        else Some DEFAULT_STATE
    | None => Some DEFAULT_STATE
    end.

End Host.

End Persistence.

(** The component and its storage after the events [evs], from [w]. *)
Definition world_after (JSON_stringify : State -> string)
  (w : Persistence.World) (evs : list Event) : Persistence.World :=
  match Persistence.run JSON_stringify w evs with
  | Some w' => w'
  | None => w
  end.

(** The stored string is the serialisation of the current state. *)
Definition stored_is_current (JSON_stringify : State -> string)
  (w : Persistence.World) : Prop :=
  Persistence.item (Persistence.storage w) =
  Some (JSON_stringify (state (Persistence.app w))).

(** What the component and its storage keep over the events when storage is
    available: the stored string is current unless a timer is pending or the
    start or summary screen is shown. *)
Definition storage_invariant (JSON_stringify : State -> string)
  (w : Persistence.World) : Prop :=
  Persistence.available (Persistence.storage w) = true /\
  invariant (Persistence.app w) /\
  timers_and_flows (Persistence.app w) /\
  (stored_is_current JSON_stringify w \/
   timers (Persistence.app w) <> [] \/
   flowState (state (Persistence.app w)) = FlowState.Start \/
   flowState (state (Persistence.app w)) = FlowState.FlowSummary).

(** ** Shared facts about the callbacks *)

Lemma callbacks_available (JSON_stringify : State -> string) (s : State)
  (cbs : list Persistence.Callback) :
  forall st,
    Persistence.available
      (fold_left (Persistence.run_callback JSON_stringify s) cbs st) =
    Persistence.available st.
Proof.
  induction cbs as [|cb cbs IH]; intros st; [reflexivity | ].
  cbn [fold_left]. rewrite IH.
  destruct cb; cbn [Persistence.run_callback];
    unfold Persistence.saveStateToLocal, Persistence.clearStorage;
    destruct (Persistence.available st) eqn:E; cbn; congruence.
Qed.

(** Without Web Storage no callback changes anything. *)
Lemma callbacks_unavailable (JSON_stringify : State -> string) (s : State)
  (cbs : list Persistence.Callback) :
  forall st,
    Persistence.available st = false ->
    fold_left (Persistence.run_callback JSON_stringify s) cbs st = st.
Proof.
  induction cbs as [|cb cbs IH]; intros st Hst; [reflexivity | ].
  cbn [fold_left].
  assert (H1 : Persistence.run_callback JSON_stringify s st cb = st).
  { destruct cb; cbn [Persistence.run_callback];
      unfold Persistence.saveStateToLocal, Persistence.clearStorage;
      now rewrite Hst. }
  rewrite H1. now apply IH.
Qed.

Lemma step_app (JSON_stringify : State -> string) (w w' : Persistence.World)
  (ev : Event) :
  Persistence.step JSON_stringify w ev = Some w' ->
  rendered ev (Persistence.app w) = true /\
  Persistence.app w' = handle ev (Persistence.app w) /\
  Persistence.storage w' =
    fold_left (Persistence.run_callback JSON_stringify (state (Persistence.app w')))
      (Persistence.callbacks ev (Persistence.app w)) (Persistence.storage w).
Proof.
  unfold Persistence.step, step.
  destruct (rendered ev (Persistence.app w)); [ | discriminate ].
  intros [= <-]. repeat split.
Qed.

Lemma rendered_timeout (a : App.t) (i : nat) :
  rendered (Timeout i) a = true -> exists tm, nth_error (timers a) i = Some tm.
Proof.
  cbn [rendered]. intros H. apply Nat.ltb_lt in H.
  destruct (nth_error (timers a) i) as [tm|] eqn:E; [now exists tm | ].
  apply nth_error_None in E. lia.
Qed.

Lemma storage_invariant_step (JSON_stringify : State -> string)
  (w w' : Persistence.World) (ev : Event) :
  storage_invariant JSON_stringify w ->
  Persistence.step JSON_stringify w ev = Some w' ->
  storage_invariant JSON_stringify w'.
Proof.
  intros [Hav [Hinv [Htf HJ]]] Hstep.
  destruct (step_app _ _ _ _ Hstep) as [R [Ha Hs]].
  assert (E : step (Persistence.app w) ev = Some (Persistence.app w'))
    by (unfold step; now rewrite R, Ha).
  assert (Hav' : Persistence.available (Persistence.storage w') = true)
    by (rewrite Hs, callbacks_available; assumption).
  split; [assumption | ].
  split; [now apply (invariant_step _ _ ev Hinv) | ].
  split; [now apply (timers_and_flows_step _ _ ev Hinv Htf) | ].
  unfold stored_is_current in *.
  destruct ev.
  - right. left. rewrite Ha, handle_timers. apply app_not_nil.
  - left. rewrite Hs. cbn [Persistence.callbacks fold_left Persistence.run_callback].
    unfold Persistence.saveStateToLocal. now rewrite Hav.
  - destruct (String.length (flowInput (state (Persistence.app w))) =? 0)%nat eqn:L.
    + assert (Hsame : Persistence.app w' = Persistence.app w).
      { rewrite Ha. cbn [handle]. unfold handleFlowSubmit. now rewrite L. }
      assert (Hst : Persistence.storage w' = Persistence.storage w).
      { rewrite Hs. cbn [Persistence.callbacks]. now rewrite L. }
      rewrite Hsame, Hst. assumption.
    + right. left. rewrite Ha, handle_timers, L. apply app_not_nil.
  - right. left. rewrite Ha, handle_timers. apply app_not_nil.
  - right. left. rewrite Ha, handle_timers. apply app_not_nil.
  - right. right. right. rewrite Ha.
    rewrite (proj1 (screen_changes_on_timer _ _)).
    cbn [rendered] in R. now apply FlowState_eqb_eq in R.
  - right. right. left. rewrite Ha. reflexivity.
  - destruct (rendered_timeout _ _ R) as [tm Htm].
    destruct (saveState tm) eqn:S.
    + left. rewrite Hs. cbn [Persistence.callbacks]. rewrite Htm, S.
      cbn [fold_left Persistence.run_callback].
      unfold Persistence.saveStateToLocal. now rewrite Hav.
    + right. right. right. rewrite Ha.
      rewrite (proj1 (screen_changes_on_timer _ _)), Htm.
      destruct Htf as [_ [Ht _]]. rewrite Forall_forall in Ht.
      destruct (Ht tm (nth_error_In _ _ Htm)) as [-> | [-> | [-> | ->]]];
        try discriminate. reflexivity.
Qed.

Lemma storage_invariant_run (JSON_stringify : State -> string) (evs : list Event) :
  forall w w',
    storage_invariant JSON_stringify w ->
    Persistence.run JSON_stringify w evs = Some w' ->
    storage_invariant JSON_stringify w'.
Proof.
  induction evs as [|ev evs IH]; intros w w' Hw; cbn [Persistence.run].
  - now intros [= <-].
  - destruct (Persistence.step JSON_stringify w ev) as [w1|] eqn:E; [ | discriminate ].
    apply IH. now apply (storage_invariant_step _ w w1 ev).
Qed.

Lemma storage_invariant_initial (JSON_stringify : State -> string)
  (stored : option string) :
  storage_invariant JSON_stringify
    (Persistence.mkWorld initial (Persistence.mkStorage true stored)).
Proof.
  split; [reflexivity | ].
  split; [apply invariant_initial | ].
  split.
  - repeat split; try constructor. discriminate.
  - right. right. left. reflexivity.
Qed.

(** ** The stored snapshot at rest *)

(** With Web Storage available and the component started from the default
    state: whenever no timer is pending and the prompt or the in-flow screen
    is shown, the stored string is the serialisation of exactly the current
    state object.  A reload at that moment therefore hands that
    serialisation to [JSON.parse] when the user confirms (the serialisation
    being non-empty), and starts from the default state when the user
    declines. *)
Theorem stored_snapshot_current_at_rest
  (JSON_stringify : State -> string) (JSON_parse : string -> option State)
  (stored : option string) (evs : list Event) (w : Persistence.World) :
  Persistence.run JSON_stringify
    (Persistence.mkWorld initial (Persistence.mkStorage true stored)) evs = Some w ->
  timers (Persistence.app w) = [] ->
  flowState (state (Persistence.app w)) = FlowState.FlowPrompt \/
  flowState (state (Persistence.app w)) = FlowState.InFlow ->
  Persistence.item (Persistence.storage w) =
    Some (JSON_stringify (state (Persistence.app w))) /\
  ((0 <? String.length (JSON_stringify (state (Persistence.app w))))%nat = true ->
   Persistence.constructor JSON_parse (Persistence.storage w) true =
     JSON_parse (JSON_stringify (state (Persistence.app w)))) /\
  Persistence.constructor JSON_parse (Persistence.storage w) false =
    Some DEFAULT_STATE.
Proof.
  intros Hrun Ht Hfs.
  destruct (storage_invariant_run JSON_stringify evs _ w
              (storage_invariant_initial JSON_stringify stored) Hrun)
    as [Hav [_ [_ HJ]]].
  assert (Hcur : Persistence.item (Persistence.storage w) =
                 Some (JSON_stringify (state (Persistence.app w)))).
  { destruct HJ as [H | [H | [H | H]]]; [exact H | contradiction | | ];
      destruct Hfs as [F | F]; rewrite F in H; discriminate. }
  split; [exact Hcur | ].
  unfold Persistence.constructor. rewrite Hav, Hcur. cbn [negb]. split.
  - now intros ->.
  - destruct (0 <? _)%nat; reflexivity.
Qed.

(** After the first transition of a day and a keystroke, with a host whose
    serialisation is the text of the input between braces. *)
Lemma stored_snapshot_current_at_rest_witness :
  Persistence.item
    (Persistence.storage
       (world_after (fun s => String.append "{" (String.append (flowInput s) "}"))
          (Persistence.mkWorld initial (Persistence.mkStorage true None))
          [StartClick 100%float; Timeout 0; FlowInputChange "a"%string])) =
  Some "{a}"%string.
Proof.
  assert (Hrun : Persistence.run
                   (fun s => String.append "{" (String.append (flowInput s) "}"))
                   (Persistence.mkWorld initial (Persistence.mkStorage true None))
                   [StartClick 100%float; Timeout 0; FlowInputChange "a"%string] =
                 Some (world_after
                         (fun s => String.append "{" (String.append (flowInput s) "}"))
                         (Persistence.mkWorld initial (Persistence.mkStorage true None))
                         [StartClick 100%float; Timeout 0; FlowInputChange "a"%string]))
    by (vm_compute; reflexivity).
  exact (proj1 (stored_snapshot_current_at_rest _ (fun _ => None) None _ _
                  Hrun eq_refl (or_introl eq_refl))).
Defined.

(** ** Without Web Storage *)

(** The storage never decides what the component does. *)
Lemma run_app (JSON_stringify : State -> string) (evs : list Event) :
  forall w w',
    Persistence.run JSON_stringify w evs = Some w' ->
    run (Persistence.app w) evs = Some (Persistence.app w').
Proof.
  induction evs as [|ev evs IH]; intros w w'; cbn [Persistence.run run].
  - now intros [= <-].
  - destruct (Persistence.step JSON_stringify w ev) as [w1|] eqn:E; [ | discriminate ].
    destruct (step_app _ _ _ _ E) as [R [Ha _]].
    unfold step. rewrite R, <- Ha. apply IH.
Qed.

(** When [typeof Storage] is undefined, no sequence of events changes the
    storage, the component goes through the states it goes through with
    storage, and the constructor starts from the default state whatever is
    stored and whatever the user would answer. *)
Theorem storage_unavailable_inert
  (JSON_stringify : State -> string) (JSON_parse : string -> option State)
  (evs : list Event) (w w' : Persistence.World) :
  Persistence.available (Persistence.storage w) = false ->
  Persistence.run JSON_stringify w evs = Some w' ->
  Persistence.storage w' = Persistence.storage w /\
  run (Persistence.app w) evs = Some (Persistence.app w') /\
  (forall confirm,
     Persistence.constructor JSON_parse (Persistence.storage w') confirm =
       Some DEFAULT_STATE).
Proof.
  intros Hav Hrun.
  assert (Hst : Persistence.storage w' = Persistence.storage w).
  { revert w Hav Hrun. induction evs as [|ev evs IH]; intros w Hav;
      cbn [Persistence.run].
    - now intros [= <-].
    - destruct (Persistence.step JSON_stringify w ev) as [w1|] eqn:E; [ | discriminate ].
      destruct (step_app _ _ _ _ E) as [_ [_ Hs]].
      rewrite callbacks_unavailable in Hs by assumption.
      intros Hrun. rewrite <- Hs. apply IH; [now rewrite Hs | assumption]. }
  split; [assumption | ].
  split; [now apply (run_app JSON_stringify) | ].
  intros confirm. unfold Persistence.constructor. now rewrite Hst, Hav.
Qed.

(** A day with one flow on a page without Web Storage. *)
Lemma storage_unavailable_inert_witness :
  Persistence.storage
    (world_after (fun _ => "{}"%string)
       (Persistence.mkWorld initial (Persistence.mkStorage false None))
       one_flow_day) =
  Persistence.mkStorage false None.
Proof.
  assert (Hrun : Persistence.run (fun _ => "{}"%string)
                   (Persistence.mkWorld initial (Persistence.mkStorage false None))
                   one_flow_day =
                 Some (world_after (fun _ => "{}"%string)
                         (Persistence.mkWorld initial (Persistence.mkStorage false None))
                         one_flow_day))
    by (vm_compute; reflexivity).
  exact (proj1 (storage_unavailable_inert (fun _ => "{}"%string) (fun _ => None)
                  one_flow_day
                  (Persistence.mkWorld initial (Persistence.mkStorage false None))
                  _ eq_refl Hrun)).
Defined.

(** ** The storage at the end of the day *)

(** With Web Storage available, "End your flow for today" leaves nothing
    stored: the saving callback of [endFlow], when there is one, runs before
    the clearing one.  But the prompt stays on the screen until the timer
    fires, and a keystroke in that time saves again: from the prompt at rest,
    after the click, a change of the input to [v] and the timer, the summary
    is shown at rest while the storage holds a snapshot taken in the middle
    of the transition (prompt screen, [inTransition] set, the day's end
    stamped). *)
Theorem end_of_day_storage (JSON_stringify : State -> string) :
  (forall w t1 t2 w',
     Persistence.available (Persistence.storage w) = true ->
     Persistence.step JSON_stringify w (EndClick t1 t2) = Some w' ->
     Persistence.item (Persistence.storage w') = None) /\
  (forall w t1 t2 v,
     Persistence.available (Persistence.storage w) = true ->
     flowState (state (Persistence.app w)) = FlowState.FlowPrompt ->
     timers (Persistence.app w) = [] ->
     exists w' saved,
       Persistence.run JSON_stringify w
         [EndClick t1 t2; FlowInputChange v; Timeout 0] = Some w' /\
       flowState (state (Persistence.app w')) = FlowState.FlowSummary /\
       timers (Persistence.app w') = [] /\
       Persistence.item (Persistence.storage w') = Some (JSON_stringify saved) /\
       flowState saved = FlowState.FlowPrompt /\
       inTransition saved = true /\
       flowInput saved = v /\
       endTime saved = t2).
Proof.
  split.
  - intros w t1 t2 w' Hav Hstep.
    destruct (step_app _ _ _ _ Hstep) as [_ [_ Hs]].
    rewrite Hs. cbn [Persistence.callbacks]. rewrite fold_left_app.
    cbn [fold_left Persistence.run_callback]. unfold Persistence.clearStorage.
    now rewrite callbacks_available, Hav.
  - intros [[[st en input cur fs fl tr tt flt] tms] [av it]] t1 t2 v.
    cbn [Persistence.storage Persistence.available Persistence.app
         state timers flowState].
    intros -> -> ->.
    destruct cur as [[[[|c' rest']|] st' en']|];
      (eexists; eexists;
       split; [reflexivity | ];
       split; [reflexivity | ];
       split; [reflexivity | ];
       split; [reflexivity | ];
       repeat split).
Qed.

(** The click at 300, on the prompt of a day that has just started. *)
Lemma end_of_day_storage_witness :
  Persistence.item
    (Persistence.storage
       (world_after (fun s => String.append "{" (String.append (flowInput s) "}"))
          (Persistence.mkWorld (after [StartClick 100%float; Timeout 0])
             (Persistence.mkStorage true None))
          [EndClick 300%float 300%float])) = None.
Proof.
  assert (Hrun : Persistence.step
                   (fun s => String.append "{" (String.append (flowInput s) "}"))
                   (Persistence.mkWorld (after [StartClick 100%float; Timeout 0])
                      (Persistence.mkStorage true None))
                   (EndClick 300%float 300%float) =
                 Some (world_after
                         (fun s => String.append "{" (String.append (flowInput s) "}"))
                         (Persistence.mkWorld (after [StartClick 100%float; Timeout 0])
                            (Persistence.mkStorage true None))
                         [EndClick 300%float 300%float]))
    by (vm_compute; reflexivity).
  exact (proj1 (end_of_day_storage _)
           (Persistence.mkWorld (after [StartClick 100%float; Timeout 0])
              (Persistence.mkStorage true None))
           300%float 300%float _ eq_refl Hrun).
Defined.

(** * The clock time shown, for every time *)

(** The minutes as [displayTimeStamp] pads them. *)
Definition padded_minutes (m : Z) : string :=
  if m <? 10 then String.append "0" (Js.ToString_int (Some m))
  else Js.ToString_int (Some m).

Definition two_characters (m : Z) : bool :=
  (String.length (padded_minutes m) =? 2)%nat.

(** For every time: when [new Date(time * 1000)] is an invalid date (NaN, an
    infinity, or beyond the range of dates), [displayTimeStamp] is
    "NaN:NaNam".  Otherwise it is made of the local hour [h] and minute
    [m]: the hour shown is 12 for [h = 0] and [h % 12] otherwise (so 0 for
    noon), then a colon, then the minute in exactly two characters, then
    "am" below hour 12 and "pm" from it on. *)
Theorem displayTimeStamp_format (LocalTZA : Z -> Z) (time : Js.number) :
  (Js.new_Date (time * 1000)%float = None ->
   displayTimeStamp LocalTZA time = "NaN:NaNam"%string) /\
  (forall t,
     Js.new_Date (time * 1000)%float = Some t ->
     exists h m,
       h = ((t + LocalTZA t) / 3600000) mod 24 /\
       m = ((t + LocalTZA t) / 60000) mod 60 /\
       0 <= h < 24 /\ 0 <= m < 60 /\
       String.length (padded_minutes m) = 2%nat /\
       displayTimeStamp LocalTZA time =
         String.append
           (String.append
              (String.append
                 (Js.ToString_int (Some (if h =? 0 then 12 else h mod 12))) ":")
              (padded_minutes m))
           (if h <? 12 then "am"%string else "pm"%string)).
Proof.
  split.
  - intros H. unfold displayTimeStamp. rewrite H. reflexivity.
  - intros t H.
    exists (((t + LocalTZA t) / 3600000) mod 24), (((t + LocalTZA t) / 60000) mod 60).
    assert (Hh := Z.mod_pos_bound ((t + LocalTZA t) / 3600000) 24 ltac:(lia)).
    assert (Hm := Z.mod_pos_bound ((t + LocalTZA t) / 60000) 60 ltac:(lia)).
    set (h := ((t + LocalTZA t) / 3600000) mod 24) in *.
    set (m := ((t + LocalTZA t) / 60000) mod 60) in *.
    split; [reflexivity | ]. split; [reflexivity | ].
    split; [assumption | ]. split; [assumption | ].
    split.
    + assert (Hall : holds_from two_characters 0 60 = true) by (vm_compute; reflexivity).
      assert (H2 := holds_from_spec _ _ _ Hall m ltac:(lia)).
      now apply Nat.eqb_eq in H2.
    + rewrite (displayTimeStamp_valid LocalTZA time h m);
        [ | rewrite H; reflexivity | rewrite H; reflexivity ].
      unfold padded_minutes. rewrite Z.rem_mod_nonneg by lia.
      destruct (12 <=? h) eqn:E1, (h <? 12) eqn:E2; try reflexivity; lia.
Qed.

(** At five past one in the afternoon, UTC. *)
Lemma displayTimeStamp_format_witness :
  exists h m,
    h = ((47100000 + 0) / 3600000) mod 24 /\
    m = ((47100000 + 0) / 60000) mod 60 /\
    0 <= h < 24 /\ 0 <= m < 60 /\
    String.length (padded_minutes m) = 2%nat /\
    displayTimeStamp (fun _ => 0) 47100%float =
      String.append
        (String.append
           (String.append
              (Js.ToString_int (Some (if h =? 0 then 12 else h mod 12))) ":")
           (padded_minutes m))
        (if h <? 12 then "am"%string else "pm"%string).
Proof.
  assert (Hd : Js.new_Date (47100 * 1000)%float = Some 47100000)
    by (vm_compute; reflexivity).
  exact (proj2 (displayTimeStamp_format (fun _ => 0) 47100%float) 47100000 Hd).
Defined.

(** * The filter after the slider has been moved *)

(** ** The order of Numbers *)

(** A key that orders the Numbers other than NaN as [<] does: the class
    (infinities, negative, zero, positive), then exponent and mantissa. *)
Definition order_key (x : spec_float) : option (Z * Z * Z) :=
  match x with
  | S754_nan => None
  | S754_infinity s => Some (if s then -2 else 2, 0, 0)
  | S754_zero _ => Some (0, 0, 0)
  | S754_finite s m e =>
      Some (if s then (-1, - e, Z.neg m) else (1, e, Z.pos m))
  end.

Definition lexcompare (p q : Z * Z * Z) : comparison :=
  let '(c1, a1, b1) := p in
  let '(c2, a2, b2) := q in
  match c1 ?= c2 with
  | Eq => match a1 ?= a2 with
          | Eq => b1 ?= b2
          | r => r
          end
  | r => r
  end.

(** ** The slider *)

(** The [value] of the range input at the whole position [k]. *)
Definition slider_value (k : Z) : string := Js.ToString_int (Some k).

(** The threshold in seconds the summary compares with, at position [k]. *)
Definition slider_threshold (k : Z) : Js.number :=
  (ToNumber (Str (slider_value k)) * SECONDS_IN_MINUTE)%float.

Definition slider_threshold_exact (k : Z) : bool :=
  PrimFloat.Leibniz.eqb (ToNumber (Str (slider_value k))) (Js.of_Z k) &&
  PrimFloat.Leibniz.eqb (slider_threshold k) (Js.of_Z (60 * k)).

(** The threshold at [j] is a number and at most the one at [j + 1]. *)
Definition slider_threshold_grows (j : Z) : bool :=
  (slider_threshold j <=? slider_threshold j)%float &&
  (slider_threshold j <=? slider_threshold (j + 1))%float.

Lemma SFcompare_key (x y : spec_float) (p q : Z * Z * Z) :
  order_key x = Some p -> order_key y = Some q ->
  SFcompare x y = Some (lexcompare p q).
Proof.
  destruct x as [sx|sx| |sx mx ex], y as [sy|sy| |sy my ey];
    try destruct sx; try destruct sy; cbn [order_key];
    intros Hp Hq; try discriminate;
    injection Hp as <-; injection Hq as <-; try reflexivity.
  cbn [SFcompare lexcompare]. rewrite Z.compare_opp.
  rewrite (Z.compare_antisym ex ey).
  destruct (ex ?= ey); reflexivity.
Qed.

Lemma lexcompare_lt_le (p q r : Z * Z * Z) :
  lexcompare p q = Lt -> lexcompare q r <> Gt -> lexcompare p r = Lt.
Proof.
  destruct p as [[c1 a1] b1], q as [[c2 a2] b2], r as [[c3 a3] b3].
  unfold lexcompare.
  destruct (Z.compare_spec c1 c2), (Z.compare_spec c2 c3), (Z.compare_spec c1 c3);
    try discriminate; try congruence; try lia;
    destruct (Z.compare_spec a1 a2), (Z.compare_spec a2 a3), (Z.compare_spec a1 a3);
    try discriminate; try congruence; try lia;
    destruct (Z.compare_spec b1 b2), (Z.compare_spec b2 b3), (Z.compare_spec b1 b3);
    try discriminate; try congruence; try lia.
Qed.

Lemma SFcompare_some_key (x y : spec_float) (c : comparison) :
  SFcompare x y = Some c ->
  exists p q, order_key x = Some p /\ order_key y = Some q.
Proof.
  destruct x, y; cbn [SFcompare order_key]; intros H; try discriminate; eauto.
Qed.

Lemma lexcompare_le_le (p q r : Z * Z * Z) :
  lexcompare p q <> Gt -> lexcompare q r <> Gt -> lexcompare p r <> Gt.
Proof.
  destruct p as [[c1 a1] b1], q as [[c2 a2] b2], r as [[c3 a3] b3].
  unfold lexcompare.
  destruct (Z.compare_spec c1 c2), (Z.compare_spec c2 c3), (Z.compare_spec c1 c3);
    try discriminate; try congruence; try lia;
    destruct (Z.compare_spec a1 a2), (Z.compare_spec a2 a3), (Z.compare_spec a1 a3);
    try discriminate; try congruence; try lia;
    destruct (Z.compare_spec b1 b2), (Z.compare_spec b2 b3), (Z.compare_spec b1 b3);
    try discriminate; try congruence; try lia.
Qed.

(** [x < y] and [y <= z] give [x < z], for Numbers as for reals. *)
Lemma ltb_leb_trans (x y z : Js.number) :
  (x <? y)%float = true -> (y <=? z)%float = true -> (x <? z)%float = true.
Proof.
  rewrite !FloatAxioms.ltb_spec, FloatAxioms.leb_spec. unfold SFltb, SFleb.
  destruct (SFcompare (Prim2SF x) (Prim2SF y)) as [c1|] eqn:E1; [ | discriminate ].
  destruct (SFcompare (Prim2SF y) (Prim2SF z)) as [c2|] eqn:E2; [ | discriminate ].
  destruct (SFcompare_some_key _ _ _ E1) as [p [q [Hp Hq]]].
  destruct (SFcompare_some_key _ _ _ E2) as [q' [r [Hq' Hr]]].
  rewrite Hq in Hq'. injection Hq' as <-.
  rewrite (SFcompare_key _ _ _ _ Hp Hq) in E1. injection E1 as <-.
  rewrite (SFcompare_key _ _ _ _ Hq Hr) in E2. injection E2 as <-.
  rewrite (SFcompare_key _ _ _ _ Hp Hr).
  intros H1 H2.
  rewrite (lexcompare_lt_le p q r).
  - reflexivity.
  - destruct (lexcompare p q); [discriminate | reflexivity | discriminate].
  - destruct (lexcompare q r); [discriminate | discriminate | ]. discriminate.
Qed.

(** [x <= y] and [y <= z] give [x <= z]. *)
Lemma leb_trans (x y z : Js.number) :
  (x <=? y)%float = true -> (y <=? z)%float = true -> (x <=? z)%float = true.
Proof.
  rewrite !FloatAxioms.leb_spec. unfold SFleb.
  destruct (SFcompare (Prim2SF x) (Prim2SF y)) as [c1|] eqn:E1; [ | discriminate ].
  destruct (SFcompare (Prim2SF y) (Prim2SF z)) as [c2|] eqn:E2; [ | discriminate ].
  destruct (SFcompare_some_key _ _ _ E1) as [p [q [Hp Hq]]].
  destruct (SFcompare_some_key _ _ _ E2) as [q' [r [Hq' Hr]]].
  rewrite Hq in Hq'. injection Hq' as <-.
  rewrite (SFcompare_key _ _ _ _ Hp Hq) in E1. injection E1 as <-.
  rewrite (SFcompare_key _ _ _ _ Hq Hr) in E2. injection E2 as <-.
  rewrite (SFcompare_key _ _ _ _ Hp Hr).
  assert (H := lexcompare_le_le p q r).
  destruct (lexcompare p q), (lexcompare q r), (lexcompare p r);
    intros H1 H2; try reflexivity; try discriminate;
    (exfalso; apply H; [discriminate | discriminate | reflexivity]).
Qed.

(** The thresholds of the slider grow with its position. *)
Lemma slider_thresholds_grow (n : nat) :
  forall j,
    0 <= j -> j + Z.of_nat n <= 120 ->
    (slider_threshold j <=? slider_threshold (j + Z.of_nat n))%float = true.
Proof.
  assert (Hall : holds_from slider_threshold_grows 0 121 = true)
    by (vm_compute; reflexivity).
  induction n as [|n IH]; intros j Hj Hk.
  - assert (H := holds_from_spec _ _ _ Hall j ltac:(lia)).
    unfold slider_threshold_grows in H. apply andb_true_iff in H.
    replace (j + Z.of_nat 0) with j by lia. apply H.
  - apply (leb_trans _ (slider_threshold (j + Z.of_nat n))).
    + apply IH; lia.
    + assert (H := holds_from_spec _ _ _ Hall (j + Z.of_nat n) ltac:(lia)).
      unfold slider_threshold_grows in H. apply andb_true_iff in H.
      replace (j + Z.of_nat (S n)) with (j + Z.of_nat n + 1) by lia. apply H.
Qed.

(** Once the slider has been moved to the whole position [k] between 0 and
    120, [filterFlowLength] is a string; the summary still filters by
    number: the string converts to [k], the threshold is exactly [60 * k]
    seconds, and a flow is left out exactly when its duration is below it. *)
Theorem slider_filters_by_number (k : Z) (a : App.t) (flow : IFlowItem.t) :
  0 <= k <= 120 ->
  filterFlowLength (state (handleSliderChange (slider_value k) a)) =
    Str (slider_value k) /\
  ToNumber (Str (slider_value k)) = Js.of_Z k /\
  (FlowSummary_flow (state (handleSliderChange (slider_value k) a)) flow = None <->
   (duration_seconds flow <? Js.of_Z (60 * k))%float = true).
Proof.
  intros Hk.
  assert (Hall : holds_from slider_threshold_exact 0 121 = true)
    by (vm_compute; reflexivity).
  assert (He := holds_from_spec _ _ _ Hall k ltac:(lia)).
  unfold slider_threshold_exact in He. apply andb_true_iff in He.
  destruct He as [H1 H2].
  apply FloatAxioms.Leibniz.eqb_spec in H1.
  apply FloatAxioms.Leibniz.eqb_spec in H2.
  split; [reflexivity | ]. split; [exact H1 | ].
  rewrite FlowSummary_flow_None.
  change (ToNumber (filterFlowLength (state (handleSliderChange (slider_value k) a)))
          * SECONDS_IN_MINUTE)%float
    with (slider_threshold k).
  now rewrite H2.
Qed.

(** At position 30, for the flow of the two-hour day. *)
Lemma slider_filters_by_number_witness :
  ToNumber (Str (slider_value 30)) = Js.of_Z 30.
Proof.
  exact (proj1 (proj2 (slider_filters_by_number 30 initial
                         (IFlowItem.mk (Some "a"%string) (Some 1800%float) (Some 3600%float))
                         ltac:(lia)))).
Defined.

(** Raising the filter never brings a flow back.  If the threshold of one
    state is at most that of another, every flow the summary leaves out in
    the first is left out in the second; and the thresholds of the slider
    grow with its position, so a flow left out at position [j] is left out
    at every position from [j] to 120. *)
Theorem raising_filter_keeps_dropping :
  (forall s1 s2 flow,
     (ToNumber (filterFlowLength s1) * SECONDS_IN_MINUTE <=?
      ToNumber (filterFlowLength s2) * SECONDS_IN_MINUTE)%float = true ->
     FlowSummary_flow s1 flow = None ->
     FlowSummary_flow s2 flow = None) /\
  (forall j k a1 a2 flow,
     0 <= j <= k -> k <= 120 ->
     FlowSummary_flow (state (handleSliderChange (slider_value j) a1)) flow = None ->
     FlowSummary_flow (state (handleSliderChange (slider_value k) a2)) flow = None).
Proof.
  assert (Hgen : forall s1 s2 flow,
            (ToNumber (filterFlowLength s1) * SECONDS_IN_MINUTE <=?
             ToNumber (filterFlowLength s2) * SECONDS_IN_MINUTE)%float = true ->
            FlowSummary_flow s1 flow = None ->
            FlowSummary_flow s2 flow = None).
  { intros s1 s2 flow Hle H1. apply FlowSummary_flow_None in H1.
    apply FlowSummary_flow_None. exact (ltb_leb_trans _ _ _ H1 Hle). }
  split; [exact Hgen | ].
  intros j k a1 a2 flow Hj Hk. apply Hgen.
  change ((slider_threshold j <=? slider_threshold k)%float = true).
  replace k with (j + Z.of_nat (Z.to_nat (k - j))) by lia.
  apply slider_thresholds_grow; lia.
Qed.

(** The flow of 3599 seconds, left out at position 60, is left out at 90. *)
Lemma raising_filter_keeps_dropping_witness :
  FlowSummary_flow (state (handleSliderChange (slider_value 90) initial))
    (IFlowItem.mk (Some "b"%string) (Some 5000%float) (Some 8599%float)) = None.
Proof.
  apply (proj2 raising_filter_keeps_dropping 60 90 initial initial); try lia.
  vm_compute. reflexivity.
Defined.

(** * Persistence: the round trip through JSON

    [saveStateToLocal] stores [JSON.stringify(this.state)] and the
    constructor takes [JSON.parse] of what is stored.  The two host
    functions are embedded here from ECMAScript, on the values that the
    state object is made of: Numbers, strings, booleans, [null], arrays and
    objects. *)

(** ** Host: [JSON.stringify] and [JSON.parse] *)

Module Json.

(** *** Decimal digits *)

Definition is_digit (c : ascii) : bool :=
  let n := nat_of_ascii c in ((48 <=? n) && (n <=? 57))%nat.

Definition digit_value (c : ascii) : Z := Z.of_nat (nat_of_ascii c) - 48.

Definition digit_char (d : Z) : ascii := ascii_of_nat (Z.to_nat (48 + d)).

(** The value of a run of digits, most significant first, after [acc]. *)
Fixpoint decimal_value (acc : Z) (cs : list ascii) : Z :=
  match cs with
  | [] => acc
  | c :: cs => decimal_value (10 * acc + digit_value c) cs
  end.

Fixpoint digits_acc (fuel : nat) (n : Z) (acc : list ascii) : list ascii :=
  match fuel with
  | O => acc
  | S fuel =>
      let acc' := digit_char (n mod 10) :: acc in
      if n <? 10 then acc' else digits_acc fuel (n / 10) acc'
  end.

(** The decimal representation of a natural number, without leading zeros
    ([0] is one digit). *)
Definition digits (n : Z) : list ascii :=
  digits_acc (S (Z.to_nat (Z.log2 n))) n [].

(** The longest run of digits [l] starts with, and what follows it. *)
Fixpoint take_digits (l : list ascii) : list ascii * list ascii :=
  match l with
  | c :: r =>
      if is_digit c then let (ds, r') := take_digits r in (c :: ds, r')
      else ([], l)
  | [] => ([], [])
  end.

(** *** From decimal to binary64

    The Number value of the decimal [s * 10^e]: the binary64 value nearest
    to it, the one with an even significand on a tie (ECMAScript's
    "Number value for" a mathematical value).  The integer [s * 10^e], or
    the quotient of [s] by [10^-e], is rounded once, by the rounding of
    [SpecFloat].  Past the exponents tested first the result is an infinity
    or a zero whatever the digits are.  (For a literal with more than 20
    significant digits ECMAScript allows a second result; the texts that
    [Number::toString] prints have at most 17.) *)
Definition round_decimal (s e : Z) : spec_float :=
  if s <=? 0 then S754_zero false
  else if 0 <=? e then
    if 400 <? e then S754_infinity false
    else binary_normalize prec emax (s * 10 ^ e) 0 false
  else
    if Z.log2 s + 1 + e <? -400 then S754_zero false
    else
      let '(q, e2, l) := SFdiv_core_binary prec emax s 0 (10 ^ (- e)) 0 in
      binary_round_aux prec emax false q e2 l.

(** *** [Number::toString]: the shortest digits *)

Definition sf_eqb (x y : spec_float) : bool :=
  match x, y with
  | S754_zero a, S754_zero b => Bool.eqb a b
  | S754_infinity a, S754_infinity b => Bool.eqb a b
  | S754_nan, S754_nan => true
  | S754_finite a m e, S754_finite b m' e' =>
      Bool.eqb a b && (m =? m')%positive && (e =? e')
  | _, _ => false
  end.

(** The smallest [n] from the given one on with [num / den < 10^n]. *)
Fixpoint magnitude_from (fuel : nat) (num den n : Z) : Z :=
  match fuel with
  | O => n
  | S fuel =>
      if (if 0 <=? n then num <? den * 10 ^ n else num * 10 ^ (- n) <? den)
      then n
      else magnitude_from fuel num den (n + 1)
  end.

(** The [n] with [10^(n-1) <= num / den < 10^n], searched from a lower
    bound that the binary logarithms give. *)
Definition magnitude (num den : Z) : Z :=
  magnitude_from 8 num den
    (((Z.log2 num - Z.log2 den - 1) * 30103) / 100000 - 1).

(** The decimals with [k] digits next to [num / den], as [(s, e)] for
    [s * 10^e]: the closer one first, the even one first on a tie; one
    only when [num / den] has [k] digits itself. *)
Definition candidates (num den n k : Z) : list (Z * Z) :=
  let p := k - n in
  let tn := if 0 <=? p then num * 10 ^ p else num in
  let td := if 0 <=? p then den else den * 10 ^ (- p) in
  let lo := tn / td in
  let r := tn mod td in
  let shape c := if c =? 10 ^ k then (10 ^ (k - 1), n - k + 1) else (c, n - k) in
  if r =? 0 then [shape lo]
  else
    match 2 * r ?= td with
    | Lt => [shape lo; shape (lo + 1)]
    | Gt => [shape (lo + 1); shape lo]
    | Eq => if Z.even lo then [shape lo; shape (lo + 1)]
            else [shape (lo + 1); shape lo]
    end.

(** The first candidate whose Number value is [x]. *)
Fixpoint first_exact (x : spec_float) (cs : list (Z * Z)) : option (Z * Z) :=
  match cs with
  | [] => None
  | (s, e) :: cs =>
      if (0 <? s) && sf_eqb (round_decimal s e) x then Some (s, e)
      else first_exact x cs
  end.

Fixpoint shortest_from (fuel : nat) (x : spec_float) (num den n k : Z)
  : option (Z * Z) :=
  match fuel with
  | O => None
  | S fuel =>
      match first_exact x (candidates num den n k) with
      | Some r => Some r
      | None => shortest_from fuel x num den n (k + 1)
      end
  end.

(** The digits [Number::toString] prints for the positive finite Number
    [m * 2^e]: the pair [(s, e10)] with the fewest digits in [s], at most
    17, such that the Number value of [s * 10^e10] is that Number, the
    closest to it among those.  ECMAScript defines them by that property;
    the search is over one to seventeen digits, and [None] says that it
    found none.  Seventeen digits are enough for every binary64 value; that
    fact is not proved here, so [valid_number] below asks for the search to
    succeed. *)
Definition shortest (m : positive) (e : Z) : option (Z * Z) :=
  let num := if 0 <=? e then Z.pos m * 2 ^ e else Z.pos m in
  let den := if 0 <=? e then 1 else 2 ^ (- e) in
  shortest_from 17 (S754_finite false m e) num den (magnitude num den) 1.

Definition zeros (n : Z) : list ascii := repeat "0"%char (Z.to_nat n).

Definition exponent_text (e : Z) : list ascii :=
  (if 0 <? e then "+"%char else "-"%char) :: digits (Z.abs e).

(** The text of [s * 10^e] when [s] has the digits [ds]: steps 5 to 9 of
    [Number::toString], with [k] the number of digits and [n = e + k]. *)
Definition format_digits (ds : list ascii) (e : Z) : list ascii :=
  let k := Z.of_nat (List.length ds) in
  let n := e + k in
  if (k <=? n) && (n <=? 21) then ds ++ zeros (n - k)
  else if (0 <? n) && (n <=? 21) then
    firstn (Z.to_nat n) ds ++ "."%char :: skipn (Z.to_nat n) ds
  else if (-6 <? n) && (n <=? 0) then
    "0"%char :: "."%char :: zeros (- n) ++ ds
  else
    match ds with
    | [] => []
    | [d] => d :: "e"%char :: exponent_text (n - 1)
    | d :: ds' => d :: "."%char :: ds' ++ "e"%char :: exponent_text (n - 1)
    end.

Definition format (s e : Z) : list ascii := format_digits (digits s) e.

(** [Number::toString] with radix 10.  Where the search for the digits
    finds none the 17 digits next to the Number are printed. *)
Definition Number_toString (x : float) : list ascii :=
  match Prim2SF x with
  | S754_nan => list_ascii_of_string "NaN"
  | S754_zero _ => ["0"%char]
  | S754_infinity sg =>
      (if sg then ["-"%char] else []) ++ list_ascii_of_string "Infinity"
  | S754_finite sg m e =>
      let '(s, e10) :=
        match shortest m e with
        | Some r => r
        | None =>
            let num := if 0 <=? e then Z.pos m * 2 ^ e else Z.pos m in
            let den := if 0 <=? e then 1 else 2 ^ (- e) in
            hd (0, 0) (candidates num den (magnitude num den) 17)
        end in
      (if sg then ["-"%char] else []) ++ format s e10
  end.


(** *** The Number of a JSON number

    The grammar of a JSON number: an optional minus sign, an integer part
    without superfluous leading zeros, an optional fraction and an optional
    exponent.  Its value is the Number value of the decimal it denotes. *)

Definition parse_sign (l : list ascii) : bool * list ascii :=
  match l with
  | c :: r => if (c =? "-")%char then (true, r) else (false, l)
  | [] => (false, l)
  end.

Definition leading_zero (int : list ascii) : bool :=
  match int with
  | c :: _ :: _ => (c =? "0")%char
  | _ => false
  end.

Definition parse_int (l : list ascii) : option (list ascii * list ascii) :=
  match take_digits l with
  | ([], _) => None
  | (int, r) => if leading_zero int then None else Some (int, r)
  end.

Definition parse_fraction (l : list ascii) : option (list ascii * list ascii) :=
  match l with
  | c :: r =>
      if (c =? ".")%char then
        match take_digits r with
        | ([], _) => None
        | p => Some p
        end
      else Some ([], l)
  | [] => Some ([], l)
  end.

Definition parse_exponent (l : list ascii) : option (Z * list ascii) :=
  match l with
  | c :: r =>
      if ((c =? "e") || (c =? "E"))%char then
        let '(neg, r1) :=
          match r with
          | c' :: r' =>
              if (c' =? "-")%char then (true, r')
              else if (c' =? "+")%char then (false, r')
              else (false, r)
          | [] => (false, r)
          end in
        match take_digits r1 with
        | ([], _) => None
        | (ds, r2) =>
            Some (if neg then - decimal_value 0 ds else decimal_value 0 ds, r2)
        end
      else Some (0, l)
  | [] => Some (0, l)
  end.

Definition parse_number (l : list ascii) : option (float * list ascii) :=
  let (neg, l1) := parse_sign l in
  match parse_int l1 with
  | None => None
  | Some (int, l2) =>
      match parse_fraction l2 with
      | None => None
      | Some (frac, l3) =>
          match parse_exponent l3 with
          | None => None
          | Some (ex, l4) =>
              let y := SF2Prim (round_decimal (decimal_value 0 (int ++ frac))
                                  (ex - Z.of_nat (List.length frac))) in
              Some (if neg then (- y)%float else y, l4)
          end
      end
  end.

(** A Number that [JSON.stringify] prints and [JSON.parse] reads back: it
    is finite, it is not [-0] (printed as [0]), and the search for its
    digits ends. *)
Definition valid_number (x : float) : bool :=
  match Prim2SF x with
  | S754_zero sg => negb sg
  | S754_finite _ m e =>
      match shortest m e with
      | Some _ => true
      | None => false
      end
  | _ => false
  end.

(** What may follow a number in a text: nothing that would continue it. *)
Definition continues_number (c : ascii) : bool :=
  (is_digit c || (c =? ".") || (c =? "e") || (c =? "E"))%char.

Definition starts_with (p : ascii -> bool) (l : list ascii) : bool :=
  match l with
  | c :: _ => p c
  | [] => false
  end.

(** *** Strings

    A character of a string stands for the UTF-16 code unit of the same
    number, so the strings here are those over U+0000 to U+00FF. *)

Definition quotation_mark : ascii := "034"%char.

Definition hex_digit (n : nat) : ascii :=
  nth n (list_ascii_of_string "0123456789abcdef") "0"%char.

(** [QuoteJSONString] on one code unit: the two-character escapes of the
    table, [\u00xx] for the other control characters, the character itself
    otherwise. *)
Definition quote_char (c : ascii) : list ascii :=
  let n := nat_of_ascii c in
  if (n =? 8)%nat then ["\"; "b"]%char
  else if (n =? 9)%nat then ["\"; "t"]%char
  else if (n =? 10)%nat then ["\"; "n"]%char
  else if (n =? 12)%nat then ["\"; "f"]%char
  else if (n =? 13)%nat then ["\"; "r"]%char
  else if (n =? 34)%nat then ["\"%char; quotation_mark]
  else if (n =? 92)%nat then ["\"; "\"]%char
  else if (n <? 32)%nat then
    ["\"; "u"; "0"; "0"]%char ++ [hex_digit (n / 16); hex_digit (n mod 16)]
  else [c].

Fixpoint quote_chars (s : string) : list ascii :=
  match s with
  | EmptyString => []
  | String c s => quote_char c ++ quote_chars s
  end.

Definition QuoteJSONString (s : string) : list ascii :=
  quotation_mark :: quote_chars s ++ [quotation_mark].

Definition hex_value (c : ascii) : option nat :=
  let n := nat_of_ascii c in
  if ((48 <=? n) && (n <=? 57))%nat then Some (n - 48)%nat
  else if ((97 <=? n) && (n <=? 102))%nat then Some (n - 87)%nat
  else if ((65 <=? n) && (n <=? 70))%nat then Some (n - 55)%nat
  else None.

(** The character a two-character escape stands for. *)
Definition unescape (c : ascii) : option ascii :=
  if (c =? quotation_mark)%char then Some quotation_mark
  else if (c =? "\")%char then Some "\"%char
  else if (c =? "/")%char then Some "/"%char
  else if (c =? "b")%char then Some "008"%char
  else if (c =? "f")%char then Some "012"%char
  else if (c =? "n")%char then Some "010"%char
  else if (c =? "r")%char then Some "013"%char
  else if (c =? "t")%char then Some "009"%char
  else None.

(** A JSON string after its opening quotation mark: the string and what
    follows the closing mark.  A control character is a syntax error, and
    so is here an escape [\uXXXX] above U+00FF, which no string of this
    embedding holds. *)
Fixpoint parse_string (l : list ascii) : option (string * list ascii) :=
  match l with
  | [] => None
  | c :: r =>
      if (c =? quotation_mark)%char then Some (EmptyString, r)
      else if (c =? "\")%char then
        match r with
        | [] => None
        | e :: r1 =>
            if (e =? "u")%char then
              match r1 with
              | h1 :: h2 :: h3 :: h4 :: r2 =>
                  match hex_value h1, hex_value h2, hex_value h3, hex_value h4 with
                  | Some a, Some b, Some c, Some d =>
                      let code := (((a * 16 + b) * 16 + c) * 16 + d)%nat in
                      if (code <? 256)%nat then
                        match parse_string r2 with
                        | Some (s, r3) => Some (String (ascii_of_nat code) s, r3)
                        | None => None
                        end
                      else None
                  | _, _, _, _ => None
                  end
              | _ => None
              end
            else
              match unescape e with
              | Some c' =>
                  match parse_string r1 with
                  | Some (s, r2) => Some (String c' s, r2)
                  | None => None
                  end
              | None => None
              end
        end
      else if (nat_of_ascii c <? 32)%nat then None
      else
        match parse_string r with
        | Some (s, r') => Some (String c s, r')
        | None => None
        end
  end.

(** *** Values *)

(** A JSON value.  An object is the list of its members in the order of the
    text; [get] reads a property. *)
#[local] Unset Elimination Schemes.
Inductive value :=
| JNull
| JBool (b : bool)
| JNumber (x : float)
| JString (s : string)
| JArray (vs : list value)
| JObject (ms : list (string * value)).
#[local] Set Elimination Schemes.

(** The property [k] of an object: of members with the same name the last
    one counts. *)
Definition get (k : string) (ms : list (string * value)) : option value :=
  fold_left (fun acc m => if String.eqb (fst m) k then Some (snd m) else acc)
    ms None.

Definition finite (x : float) : bool :=
  match Prim2SF x with
  | S754_nan | S754_infinity _ => false
  | _ => true
  end.

(** The texts [ts] with a comma between them. *)
Fixpoint join (ts : list (list ascii)) : list ascii :=
  match ts with
  | [] => []
  | t :: ts' =>
      t ++ match ts' with
           | [] => []
           | _ :: _ => ","%char :: join ts'
           end
  end.

(** [JSON.stringify] without indentation ([SerializeJSONProperty]): a
    Number that is not finite is printed as [null]. *)
Fixpoint print (v : value) : list ascii :=
  match v with
  | JNull => list_ascii_of_string "null"
  | JBool b => list_ascii_of_string (if b then "true" else "false")
  | JNumber x => if finite x then Number_toString x else list_ascii_of_string "null"
  | JString s => QuoteJSONString s
  | JArray vs => "["%char :: join (map print vs) ++ ["]"%char]
  | JObject ms =>
      "{"%char ::
      join (map (fun '(k, v) => QuoteJSONString k ++ ":"%char :: print v) ms) ++
      ["}"%char]
  end.

Definition is_ws (c : ascii) : bool :=
  let n := nat_of_ascii c in
  ((n =? 9) || (n =? 10) || (n =? 13) || (n =? 32))%nat.

Fixpoint skip_ws (l : list ascii) : list ascii :=
  match l with
  | c :: r => if is_ws c then skip_ws r else l
  | [] => []
  end.

(** [l] without the characters [p] it has to start with. *)
Fixpoint expect (p l : list ascii) : option (list ascii) :=
  match p, l with
  | [], _ => Some l
  | c :: p', d :: l' => if (c =? d)%char then expect p' l' else None
  | _ :: _, [] => None
  end.

(** The JSON grammar, by recursive descent: the value a text starts with
    and the rest of the text.  [fuel] bounds the number of values that are
    read; a text cannot hold more values than it has characters. *)
Fixpoint parse_value (fuel : nat) (l : list ascii) {struct fuel}
  : option (value * list ascii) :=
  match fuel with
  | O => None
  | S fuel =>
      match skip_ws l with
      | [] => None
      | c :: r =>
          if (c =? "n")%char then
            match expect (list_ascii_of_string "ull") r with
            | Some r' => Some (JNull, r')
            | None => None
            end
          else if (c =? "t")%char then
            match expect (list_ascii_of_string "rue") r with
            | Some r' => Some (JBool true, r')
            | None => None
            end
          else if (c =? "f")%char then
            match expect (list_ascii_of_string "alse") r with
            | Some r' => Some (JBool false, r')
            | None => None
            end
          else if (c =? quotation_mark)%char then
            match parse_string r with
            | Some (s, r') => Some (JString s, r')
            | None => None
            end
          else if (c =? "[")%char then
            match skip_ws r with
            | [] => None
            | c' :: r' =>
                if (c' =? "]")%char then Some (JArray [], r')
                else
                  match parse_elements fuel r with
                  | Some (vs, r'') => Some (JArray vs, r'')
                  | None => None
                  end
            end
          else if (c =? "{")%char then
            match skip_ws r with
            | [] => None
            | c' :: r' =>
                if (c' =? "}")%char then Some (JObject [], r')
                else
                  match parse_members fuel r with
                  | Some (ms, r'') => Some (JObject ms, r'')
                  | None => None
                  end
            end
          else
            match parse_number (c :: r) with
            | Some (x, r') => Some (JNumber x, r')
            | None => None
            end
      end
  end
with parse_elements (fuel : nat) (l : list ascii) {struct fuel}
  : option (list value * list ascii) :=
  match fuel with
  | O => None
  | S fuel =>
      match parse_value fuel l with
      | None => None
      | Some (v, r) =>
          match skip_ws r with
          | [] => None
          | c :: r' =>
              if (c =? ",")%char then
                match parse_elements fuel r' with
                | Some (vs, r'') => Some (v :: vs, r'')
                | None => None
                end
              else if (c =? "]")%char then Some ([v], r')
              else None
          end
      end
  end
with parse_members (fuel : nat) (l : list ascii) {struct fuel}
  : option (list (string * value) * list ascii) :=
  match fuel with
  | O => None
  | S fuel =>
      match skip_ws l with
      | [] => None
      | c :: r =>
          if (c =? quotation_mark)%char then
            match parse_string r with
            | None => None
            | Some (k, r1) =>
                match skip_ws r1 with
                | [] => None
                | c1 :: r2 =>
                    if (c1 =? ":")%char then
                      match parse_value fuel r2 with
                      | None => None
                      | Some (v, r3) =>
                          match skip_ws r3 with
                          | [] => None
                          | c3 :: r4 =>
                              if (c3 =? ",")%char then
                                match parse_members fuel r4 with
                                | Some (ms, r5) => Some ((k, v) :: ms, r5)
                                | None => None
                                end
                              else if (c3 =? "}")%char then Some ([(k, v)], r4)
                              else None
                          end
                      end
                    else None
                end
            end
          else None
      end
  end.

(** [JSON.parse] without reviver: the value of a text that is one JSON
    value between optional white space; [None] is its [SyntaxError]. *)
Definition parse (l : list ascii) : option value :=
  match parse_value (List.length l) l with
  | Some (v, r) =>
      match skip_ws r with
      | [] => Some v
      | _ :: _ => None
      end
  | None => None
  end.

End Json.

(** ** The state object as JSON *)

(** A member of a TypeScript numeric enum is its index. *)
Definition number_of_FlowState (f : FlowState.t) : Js.number :=
  match f with
  | FlowState.Start => 0%float
  | FlowState.FlowPrompt => 1%float
  | FlowState.InFlow => 2%float
  | FlowState.FlowSummary => 3%float
  end.

Definition FlowState_of_number (x : Js.number) : option FlowState.t :=
  if (x =? 0)%float then Some FlowState.Start
  else if (x =? 1)%float then Some FlowState.FlowPrompt
  else if (x =? 2)%float then Some FlowState.InFlow
  else if (x =? 3)%float then Some FlowState.FlowSummary
  else None.

(** A property that may be missing: [JSON.stringify] leaves it out. *)
Definition optional_member {A : Type} (k : string) (f : A -> Json.value)
  (p : option A) : list (string * Json.value) :=
  match p with
  | Some a => [(k, f a)]
  | None => []
  end.

Definition value_of_IFlowItem (f : IFlowItem.t) : Json.value :=
  Json.JObject
    (optional_member "name" Json.JString (IFlowItem.name f) ++
     optional_member "startTime" Json.JNumber (IFlowItem.startTime f) ++
     optional_member "endTime" Json.JNumber (IFlowItem.endTime f)).

(** The state object as [JSON.stringify] sees it: its properties in the
    order of [DEFAULT_STATE], which [setState] keeps. *)
Definition value_of_State (s : State) : Json.value :=
  Json.JObject
    [("startTime"%string, Json.JNumber (startTime s));
     ("endTime"%string, Json.JNumber (endTime s));
     ("flowInput"%string, Json.JString (flowInput s));
     ("currentFlow"%string,
        match currentFlow s with
        | Some f => value_of_IFlowItem f
        | None => Json.JNull
        end);
     ("flowState"%string, Json.JNumber (number_of_FlowState (flowState s)));
     ("flows"%string, Json.JArray (map value_of_IFlowItem (flows s)));
     ("inTransition"%string, Json.JBool (inTransition s));
     ("transitionTime"%string, Json.JNumber (transitionTime s));
     ("filterFlowLength"%string,
        match filterFlowLength s with
        | Num n => Json.JNumber n
        | Str t => Json.JString t
        end)].

Definition as_number (v : Json.value) : option Js.number :=
  match v with
  | Json.JNumber x => Some x
  | _ => None
  end.

Definition as_string (v : Json.value) : option string :=
  match v with
  | Json.JString s => Some s
  | _ => None
  end.

Definition as_bool (v : Json.value) : option bool :=
  match v with
  | Json.JBool b => Some b
  | _ => None
  end.

(** A property that has to be there, read with [f]. *)
Definition required {A : Type} (k : string) (f : Json.value -> option A)
  (ms : list (string * Json.value)) : option A :=
  match Json.get k ms with
  | Some v => f v
  | None => None
  end.

(** A property that may be missing. *)
Definition optional {A : Type} (k : string) (f : Json.value -> option A)
  (ms : list (string * Json.value)) : option (option A) :=
  match Json.get k ms with
  | Some v =>
      match f v with
      | Some a => Some (Some a)
      | None => None
      end
  | None => Some None
  end.

(** The records of this embedding that the JSON values stand for.  A value
    of another shape is a JavaScript value all the same, but one the
    records cannot hold: it is [None] here, as a text that does not parse
    is. *)
Definition IFlowItem_of_value (v : Json.value) : option IFlowItem.t :=
  match v with
  | Json.JObject ms =>
      match optional "name" as_string ms,
            optional "startTime" as_number ms,
            optional "endTime" as_number ms with
      | Some n, Some st, Some et => Some (IFlowItem.mk n st et)
      | _, _, _ => None
      end
  | _ => None
  end.

Fixpoint flows_of_values (vs : list Json.value) : option (list IFlowItem.t) :=
  match vs with
  | [] => Some []
  | v :: vs =>
      match IFlowItem_of_value v, flows_of_values vs with
      | Some f, Some fs => Some (f :: fs)
      | _, _ => None
      end
  end.

Definition as_currentFlow (v : Json.value) : option (option IFlowItem.t) :=
  match v with
  | Json.JNull => Some None
  | _ =>
      match IFlowItem_of_value v with
      | Some f => Some (Some f)
      | None => None
      end
  end.

Definition as_flowState (v : Json.value) : option FlowState.t :=
  match v with
  | Json.JNumber x => FlowState_of_number x
  | _ => None
  end.

Definition as_flows (v : Json.value) : option (list IFlowItem.t) :=
  match v with
  | Json.JArray vs => flows_of_values vs
  | _ => None
  end.

Definition as_filterFlowLength (v : Json.value) : option NumOrString :=
  match v with
  | Json.JNumber x => Some (Num x)
  | Json.JString t => Some (Str t)
  | _ => None
  end.

Definition State_of_value (v : Json.value) : option State :=
  match v with
  | Json.JObject ms =>
      match required "startTime" as_number ms,
            required "endTime" as_number ms,
            required "flowInput" as_string ms,
            required "currentFlow" as_currentFlow ms,
            required "flowState" as_flowState ms with
      | Some st, Some et, Some fi, Some cf, Some fs =>
          match required "flows" as_flows ms,
                required "inTransition" as_bool ms,
                required "transitionTime" as_number ms,
                required "filterFlowLength" as_filterFlowLength ms with
          | Some fl, Some it, Some trt, Some ffl =>
              Some (mkState st et fi cf fs fl it trt ffl)
          | _, _, _, _ => None
          end
      | _, _, _, _, _ => None
      end
  | _ => None
  end.

(** [JSON.stringify(this.state)] and [JSON.parse(localStateString)]. *)
Definition JSON_stringify_state (s : State) : string :=
  string_of_list_ascii (Json.print (value_of_State s)).

Definition JSON_parse_state (t : string) : option State :=
  match Json.parse (list_ascii_of_string t) with
  | Some v => State_of_value v
  | None => None
  end.

(** The snapshots that the round trip is about: every Number in them is one
    that is printed and read back ([Json.valid_number]). *)
Definition valid_optional (p : option Js.number) : bool :=
  match p with
  | Some x => Json.valid_number x
  | None => true
  end.

Definition valid_flow (f : IFlowItem.t) : bool :=
  valid_optional (IFlowItem.startTime f) && valid_optional (IFlowItem.endTime f).

Definition valid_snapshot (s : State) : bool :=
  Json.valid_number (startTime s) &&
  Json.valid_number (endTime s) &&
  Json.valid_number (transitionTime s) &&
  match filterFlowLength s with
  | Num n => Json.valid_number n
  | Str _ => true
  end &&
  match currentFlow s with
  | Some f => valid_flow f
  | None => true
  end &&
  forallb valid_flow (flows s).

(** ** Predicates, a snapshot and a tactic used for the round trip *)

Import Json.

(** The text of a number from its parts. *)
Definition number_text (neg : bool) (int frac : list ascii)
  (ex : option (bool * list ascii)) : list ascii :=
  (if neg then ["-"%char] else []) ++ int ++
  (match frac with [] => [] | _ => "."%char :: frac end) ++
  (match ex with
   | None => []
   | Some (pos, ds) => "e"%char :: (if pos then "+"%char else "-"%char) :: ds
   end).

Definition exponent_value (ex : option (bool * list ascii)) : Z :=
  match ex with
  | None => 0
  | Some (pos, ds) => if pos then decimal_value 0 ds else - decimal_value 0 ds
  end.

Definition signed (neg : bool) (y : float) : float :=
  if neg then (- y)%float else y.

(** Induction on a value, with the property for the elements of an array
    and for the members of an object. *)
Section induction_principle.

Variable P : value -> Prop.
Hypothesis HNull : P JNull.
Hypothesis HBool : forall b, P (JBool b).
Hypothesis HNumber : forall x, P (JNumber x).
Hypothesis HString : forall s, P (JString s).
Hypothesis HArray : forall vs, Forall P vs -> P (JArray vs).
Hypothesis HObject : forall ms, Forall (fun m => P (snd m)) ms -> P (JObject ms).

Fixpoint value_induction (v : value) : P v :=
  match v with
  | JNull => HNull
  | JBool b => HBool b
  | JNumber x => HNumber x
  | JString s => HString s
  | JArray vs =>
      HArray vs
        ((fix all (vs : list value) : Forall P vs :=
            match vs with
            | [] => Forall_nil P
            | v :: vs => Forall_cons v (value_induction v) (all vs)
            end) vs)
  | JObject ms =>
      HObject ms
        ((fix all (ms : list (string * value)) : Forall (fun m => P (snd m)) ms :=
            match ms with
            | [] => Forall_nil _
            | m :: ms => Forall_cons m (value_induction (snd m)) (all ms)
            end) ms)
  end.

End induction_principle.

(** The number of values in a value, counting an element or a member once
    more: the fuel that reading it takes. *)
Fixpoint size (v : value) : nat :=
  match v with
  | JArray vs => S (list_sum (map (fun v => S (size v)) vs))
  | JObject ms => S (list_sum (map (fun m => S (size (snd m))) ms))
  | _ => 1
  end.

(** Every Number in the value is one that is printed and read back. *)
Fixpoint numbers_valid (v : value) : bool :=
  match v with
  | JNumber x => valid_number x
  | JArray vs => forallb numbers_valid vs
  | JObject ms => forallb (fun m => numbers_valid (snd m)) ms
  | _ => true
  end.

Definition number_start (c : ascii) : bool :=
  is_digit c || (c =? "-")%char.

Definition value_start (c : ascii) : bool :=
  number_start c || (c =? "n")%char || (c =? "t")%char || (c =? "f")%char ||
  (c =? quotation_mark)%char || (c =? "[")%char || (c =? "{")%char.

(** Reading back the text of a value, followed by [rest]. *)
Definition round_trips (v : value) : Prop :=
  forall fuel rest,
    (size v <= fuel)%nat ->
    starts_with continues_number rest = false ->
    parse_value fuel (print v ++ rest) = Some (v, rest).

(** Decides the tests on the characters that a text is known to start
    with. *)
Ltac decide_chars :=
  repeat match goal with
  | |- context [skip_ws (?c :: ?l)] => change (skip_ws (c :: l)) with (c :: l)
  | |- context [Ascii.eqb ?a ?b] =>
      let r := eval vm_compute in (Ascii.eqb a b) in
      change (Ascii.eqb a b) with r
  end; cbv beta iota.

(** A snapshot of a day in progress: started at 1700000000.123, with one
    flow completed and another one running, the slider moved to 45. *)
Definition day_in_progress : State :=
  mkState (1700000000123 / 1000)%float 0%float "read mail"%string
    (Some (IFlowItem.mk (Some "write the report"%string)
             (Some (1700000004250 / 1000)%float) None))
    FlowState.InFlow
    [IFlowItem.mk (Some "plan"%string) (Some (1700000001001 / 1000)%float)
       (Some (1700000003999 / 1000)%float)]
    true 500%float (Str "45").

(** ** Facts about JSON texts *)

(** *** Digits *)

Lemma digit_value_char (d : Z) :
  0 <= d <= 9 -> digit_value (digit_char d) = d.
Proof.
  intros H. unfold digit_value, digit_char.
  rewrite nat_ascii_embedding by lia. lia.
Qed.

Lemma is_digit_char (d : Z) :
  0 <= d <= 9 -> is_digit (digit_char d) = true.
Proof.
  intros H. unfold is_digit, digit_char.
  rewrite nat_ascii_embedding by lia.
  apply andb_true_iff; split; apply Nat.leb_le; lia.
Qed.

Lemma digit_char_nonzero (d : Z) :
  1 <= d <= 9 -> (digit_char d =? "0")%char = false.
Proof.
  intros H. destruct (Ascii.eqb_spec (digit_char d) "0"%char) as [E|E]; [|reflexivity].
  apply (f_equal digit_value) in E. rewrite digit_value_char in E by lia.
  change (digit_value "0") with 0 in E. lia.
Qed.

Lemma decimal_value_app (a b : list ascii) (acc : Z) :
  decimal_value acc (a ++ b) = decimal_value (decimal_value acc a) b.
Proof.
  revert acc. induction a as [|c a IH]; intros acc; [reflexivity|].
  cbn [app decimal_value]. apply IH.
Qed.

Lemma pow10_succ (fuel : nat) :
  10 ^ Z.of_nat (S fuel) = 10 * 10 ^ Z.of_nat fuel.
Proof. rewrite Nat2Z.inj_succ, Z.pow_succ_r by lia. reflexivity. Qed.

Lemma digits_acc_value (fuel : nat) :
  forall n acc, 0 <= n < 10 ^ Z.of_nat fuel ->
    decimal_value 0 (digits_acc fuel n acc) = decimal_value n acc.
Proof.
  induction fuel as [|fuel IH]; intros n acc H.
  - change (10 ^ Z.of_nat 0) with 1 in H. replace n with 0 by lia. reflexivity.
  - rewrite pow10_succ in H. cbn [digits_acc].
    assert (Hm : 0 <= n mod 10 <= 9) by (pose proof (Z.mod_pos_bound n 10); lia).
    destruct (Z.ltb_spec n 10) as [L|L].
    + cbn [decimal_value]. rewrite digit_value_char by exact Hm.
      rewrite Z.mod_small by lia. f_equal.
    + rewrite IH.
      * cbn [decimal_value]. rewrite digit_value_char by exact Hm.
        f_equal. pose proof (Z.div_mod n 10). lia.
      * split; [apply Z.div_pos; lia | apply Z.div_lt_upper_bound; lia].
Qed.

Lemma digits_acc_all (fuel : nat) :
  forall n acc, Forall (fun c => is_digit c = true) acc ->
    Forall (fun c => is_digit c = true) (digits_acc fuel n acc).
Proof.
  induction fuel as [|fuel IH]; intros n acc H; [exact H|].
  cbn [digits_acc].
  assert (Hm : 0 <= n mod 10 <= 9) by (pose proof (Z.mod_pos_bound n 10); lia).
  assert (H' : Forall (fun c => is_digit c = true) (digit_char (n mod 10) :: acc))
    by (constructor; [apply is_digit_char; exact Hm | exact H]).
  destruct (n <? 10); [exact H' | apply IH; exact H'].
Qed.

Lemma digits_acc_head (fuel : nat) :
  forall n acc, 0 < n < 10 ^ Z.of_nat fuel ->
    exists c tl, digits_acc fuel n acc = c :: tl /\ (c =? "0")%char = false.
Proof.
  induction fuel as [|fuel IH]; intros n acc H.
  - change (10 ^ Z.of_nat 0) with 1 in H. lia.
  - rewrite pow10_succ in H. cbn [digits_acc].
    destruct (Z.ltb_spec n 10) as [L|L].
    + exists (digit_char (n mod 10)), acc. split; [reflexivity|].
      rewrite Z.mod_small by lia. apply digit_char_nonzero. lia.
    + apply IH. split.
      * apply Z.div_str_pos. lia.
      * apply Z.div_lt_upper_bound; lia.
Qed.

Lemma digits_fuel (n : Z) :
  0 <= n -> n < 10 ^ Z.of_nat (S (Z.to_nat (Z.log2 n))).
Proof.
  intros H. rewrite Nat2Z.inj_succ, Z2Nat.id by apply Z.log2_nonneg.
  destruct (Z.eq_dec n 0) as [->|N]; [reflexivity|].
  pose proof (Z.log2_spec n ltac:(lia)) as [_ U].
  pose proof (Z.log2_nonneg n) as P.
  assert (2 ^ Z.succ (Z.log2 n) <= 10 ^ Z.succ (Z.log2 n))
    by (apply Z.pow_le_mono_l; lia).
  lia.
Qed.

Lemma decimal_value_of_digits (n : Z) :
  0 <= n -> decimal_value 0 (digits n) = n.
Proof.
  intros H. unfold digits. rewrite digits_acc_value; [reflexivity|].
  split; [exact H | apply digits_fuel; exact H].
Qed.

Lemma digits_all (n : Z) : Forall (fun c => is_digit c = true) (digits n).
Proof. apply digits_acc_all. constructor. Qed.

Lemma digits_head (n : Z) :
  0 < n -> exists c tl, digits n = c :: tl /\ (c =? "0")%char = false.
Proof.
  intros H. apply digits_acc_head. split; [exact H | apply digits_fuel; lia].
Qed.

Lemma digits_acc_nil (fuel : nat) :
  forall n acc, digits_acc fuel n acc = [] -> acc = [].
Proof.
  induction fuel as [|fuel IH]; intros n acc H; [exact H|].
  cbn [digits_acc] in H. destruct (n <? 10); [discriminate|].
  apply IH in H. discriminate.
Qed.

Lemma digits_nonempty (n : Z) : digits n <> [].
Proof.
  unfold digits. cbn [digits_acc]. intros H.
  destruct (n <? 10); [discriminate|]. apply digits_acc_nil in H. discriminate.
Qed.

(** *** Reading a number *)

Lemma take_digits_stop (l : list ascii) :
  starts_with is_digit l = false -> take_digits l = ([], l).
Proof.
  destruct l as [|c l]; intros H; [reflexivity|].
  cbn [starts_with] in H. cbn [take_digits]. rewrite H. reflexivity.
Qed.

Lemma take_digits_app (ds rest : list ascii) :
  Forall (fun c => is_digit c = true) ds ->
  starts_with is_digit rest = false ->
  take_digits (ds ++ rest) = (ds, rest).
Proof.
  intros H R. induction H as [|c ds Hc H IH].
  - apply take_digits_stop. exact R.
  - cbn [app take_digits]. rewrite Hc, IH. reflexivity.
Qed.

Lemma is_digit_not (c d : ascii) :
  is_digit c = true -> is_digit d = false -> (c =? d)%char = false.
Proof.
  intros Hc Hd. destruct (Ascii.eqb_spec c d) as [->|]; [congruence | reflexivity].
Qed.

Lemma parse_sign_digits (int l : list ascii) :
  Forall (fun c => is_digit c = true) int ->
  int <> [] ->
  parse_sign (int ++ l) = (false, int ++ l).
Proof.
  intros H N. destruct H as [|c int Hc H]; [contradiction|].
  cbn [app parse_sign]. rewrite (is_digit_not c "-" Hc eq_refl). reflexivity.
Qed.

Lemma parse_int_app (int l : list ascii) :
  Forall (fun c => is_digit c = true) int ->
  int <> [] -> leading_zero int = false ->
  starts_with is_digit l = false ->
  parse_int (int ++ l) = Some (int, l).
Proof.
  intros H N Z L. unfold parse_int. rewrite take_digits_app by assumption.
  destruct int as [|c int]; [contradiction|]. rewrite Z. reflexivity.
Qed.

Lemma parse_fraction_some (frac l : list ascii) :
  Forall (fun c => is_digit c = true) frac ->
  frac <> [] ->
  starts_with is_digit l = false ->
  parse_fraction ("."%char :: frac ++ l) = Some (frac, l).
Proof.
  intros H N L. unfold parse_fraction. rewrite Ascii.eqb_refl.
  rewrite take_digits_app by assumption.
  destruct frac; [contradiction | reflexivity].
Qed.

Lemma parse_fraction_none (l : list ascii) :
  starts_with (Ascii.eqb ".") l = false ->
  parse_fraction l = Some ([], l).
Proof.
  destruct l as [|c l]; intros H; [reflexivity|].
  cbn [starts_with] in H. unfold parse_fraction.
  rewrite Ascii.eqb_sym, H. reflexivity.
Qed.

Lemma parse_exponent_some (pos : bool) (ds l : list ascii) :
  Forall (fun c => is_digit c = true) ds ->
  ds <> [] ->
  starts_with is_digit l = false ->
  parse_exponent ("e"%char :: (if pos then "+"%char else "-"%char) :: ds ++ l) =
    Some (if pos then decimal_value 0 ds else - decimal_value 0 ds, l).
Proof.
  intros H N L. unfold parse_exponent.
  change (("e" =? "e")%char || ("e" =? "E")%char) with true. cbv iota.
  destruct pos.
  - change (("+" =? "-")%char) with false. change (("+" =? "+")%char) with true.
    cbv iota. rewrite take_digits_app by assumption.
    destruct ds; [contradiction | reflexivity].
  - change (("-" =? "-")%char) with true.
    cbv iota. rewrite take_digits_app by assumption.
    destruct ds; [contradiction | reflexivity].
Qed.

Lemma parse_exponent_none (l : list ascii) :
  starts_with (fun c => (c =? "e") || (c =? "E"))%char l = false ->
  parse_exponent l = Some (0, l).
Proof.
  destruct l as [|c l]; intros H; [reflexivity|].
  cbn [starts_with] in H. unfold parse_exponent. rewrite H. reflexivity.
Qed.

Lemma continues_number_parts (rest : list ascii) :
  starts_with continues_number rest = false ->
  starts_with is_digit rest = false /\
  starts_with (Ascii.eqb ".") rest = false /\
  starts_with (fun c => (c =? "e") || (c =? "E"))%char rest = false.
Proof.
  destruct rest as [|c rest]; [repeat split|].
  cbn [starts_with]. unfold continues_number. intros H.
  rewrite <- !orb_assoc in H.
  apply orb_false_iff in H. destruct H as [H1 H].
  apply orb_false_iff in H. destruct H as [H2 H].
  rewrite (Ascii.eqb_sym "." c). auto.
Qed.

Lemma parse_number_text (neg : bool) (int frac : list ascii)
  (ex : option (bool * list ascii)) (rest : list ascii) :
  Forall (fun c => is_digit c = true) int ->
  int <> [] -> leading_zero int = false ->
  Forall (fun c => is_digit c = true) frac ->
  match ex with
  | None => True
  | Some (_, ds) => Forall (fun c => is_digit c = true) ds /\ ds <> []
  end ->
  starts_with continues_number rest = false ->
  parse_number (number_text neg int frac ex ++ rest) =
    Some (signed neg
            (SF2Prim (round_decimal (decimal_value 0 (int ++ frac))
                        (exponent_value ex - Z.of_nat (List.length frac)))),
          rest).
Proof.
  intros Hint Nint Zint Hfrac Hex Hrest.
  destruct (continues_number_parts rest Hrest) as (R1 & R2 & R3).
  set (tail_e := match ex with
                 | None => []
                 | Some (pos, ds) =>
                     "e"%char :: (if pos then "+"%char else "-"%char) :: ds
                 end ++ rest).
  set (tail_f := match frac with [] => [] | _ => "."%char :: frac end ++ tail_e).
  assert (Te : starts_with is_digit tail_e = false)
    by (subst tail_e; destruct ex as [[pos ds]|]; [reflexivity | exact R1]).
  assert (Te' : starts_with (Ascii.eqb ".") tail_e = false)
    by (subst tail_e; destruct ex as [[pos ds]|]; [reflexivity | exact R2]).
  assert (Tf : starts_with is_digit tail_f = false)
    by (subst tail_f; destruct frac; [exact Te | reflexivity]).
  assert (E : number_text neg int frac ex ++ rest =
              (if neg then ["-"%char] else []) ++ int ++ tail_f).
  { unfold number_text. subst tail_f tail_e. rewrite <- !app_assoc. reflexivity. }
  rewrite E. unfold parse_number.
  assert (S : parse_sign ((if neg then ["-"%char] else []) ++ int ++ tail_f) =
              (neg, int ++ tail_f)).
  { destruct neg; [reflexivity|]. apply (parse_sign_digits int tail_f); assumption. }
  rewrite S, parse_int_app by assumption.
  assert (F : parse_fraction tail_f = Some (frac, tail_e)).
  { subst tail_f. destruct frac as [|c frac].
    - apply parse_fraction_none. exact Te'.
    - apply (parse_fraction_some (c :: frac)); [assumption | discriminate | exact Te]. }
  rewrite F.
  assert (X : parse_exponent tail_e = Some (exponent_value ex, rest)).
  { subst tail_e. destruct ex as [[pos ds]|].
    - destruct Hex as [Hd Nd]. cbn [app exponent_value].
      rewrite (parse_exponent_some pos ds rest Hd Nd R1). destruct pos; reflexivity.
    - apply parse_exponent_none. exact R3. }
  rewrite X. destruct neg; reflexivity.
Qed.

(** *** Printing a number and reading it back *)

Lemma round_decimal_shift (v j : Z) :
  0 <= j <= 21 -> round_decimal (v * 10 ^ j) 0 = round_decimal v j.
Proof.
  intros H. unfold round_decimal.
  assert (P : 0 < 10 ^ j) by (apply Z.pow_pos_nonneg; lia).
  destruct (Z.leb_spec v 0) as [L|L].
  - replace (v * 10 ^ j <=? 0) with true; [reflexivity|].
    symmetry. apply Z.leb_le. nia.
  - replace (v * 10 ^ j <=? 0) with false by (symmetry; apply Z.leb_gt; nia).
    replace (0 <=? j) with true by (symmetry; apply Z.leb_le; lia).
    replace (400 <? j) with false by (symmetry; apply Z.ltb_ge; lia).
    change (0 <=? 0) with true. change (400 <? 0) with false. cbv iota.
    rewrite Z.pow_0_r, Z.mul_1_r. reflexivity.
Qed.

Lemma decimal_value_repeat (k : nat) :
  forall acc, decimal_value acc (repeat "0"%char k) = acc * 10 ^ Z.of_nat k.
Proof.
  induction k as [|k IH]; intros acc.
  - cbn [repeat decimal_value]. change (10 ^ Z.of_nat 0) with 1. lia.
  - cbn [repeat decimal_value]. rewrite IH, pow10_succ.
    change (digit_value "0") with 0. lia.
Qed.

Lemma decimal_value_zeros (j acc : Z) :
  0 <= j -> decimal_value acc (zeros j) = acc * 10 ^ j.
Proof.
  intros H. unfold zeros. rewrite decimal_value_repeat, Z2Nat.id by lia. reflexivity.
Qed.

Lemma zeros_all (j : Z) : Forall (fun c => is_digit c = true) (zeros j).
Proof.
  unfold zeros. induction (Z.to_nat j) as [|k IH]; constructor; [reflexivity | exact IH].
Qed.

Lemma zeros_length (j : Z) : 0 <= j -> Z.of_nat (List.length (zeros j)) = j.
Proof. intros H. unfold zeros. rewrite repeat_length. lia. Qed.

Lemma leading_zero_head (c : ascii) (l : list ascii) :
  (c =? "0")%char = false -> leading_zero (c :: l) = false.
Proof. intros H. destruct l; [reflexivity | exact H]. Qed.

Lemma number_text_plain (neg : bool) (int rest : list ascii) :
  (if neg then ["-"%char] else []) ++ int ++ rest =
  number_text neg int [] None ++ rest.
Proof. unfold number_text. rewrite !app_nil_r, <- app_assoc. reflexivity. Qed.

Lemma number_text_fraction (neg : bool) (int frac rest : list ascii) :
  frac <> [] ->
  (if neg then ["-"%char] else []) ++ (int ++ "."%char :: frac) ++ rest =
  number_text neg int frac None ++ rest.
Proof.
  intros N. unfold number_text. destruct frac; [contradiction|].
  rewrite !app_nil_r, <- !app_assoc. reflexivity.
Qed.

Lemma exponent_text_spec (e : Z) :
  exponent_text e =
    (if 0 <? e then "+"%char else "-"%char) :: digits (Z.abs e) /\
  exponent_value (Some (0 <? e, digits (Z.abs e))) = e.
Proof.
  split; [reflexivity|]. cbn [exponent_value].
  rewrite decimal_value_of_digits by lia.
  destruct (Z.ltb_spec 0 e); lia.
Qed.

Lemma parse_number_format (neg : bool) (ds : list ascii) (e : Z)
  (rest : list ascii) :
  Forall (fun c => is_digit c = true) ds ->
  (exists c tl, ds = c :: tl /\ (c =? "0")%char = false) ->
  starts_with continues_number rest = false ->
  parse_number ((if neg then ["-"%char] else []) ++ format_digits ds e ++ rest) =
    Some (signed neg (SF2Prim (round_decimal (decimal_value 0 ds) e)), rest).
Proof.
  intros Hds (c & tl & Eds & Hc) Hrest. unfold format_digits.
  set (k := Z.of_nat (List.length ds)). set (n := e + k).
  assert (Kpos : 1 <= k) by (subst k ds; cbn [List.length]; lia).
  assert (Nds : ds <> []) by (subst ds; discriminate).
  assert (Lz : forall l, leading_zero (c :: l) = false)
    by (intros l; apply leading_zero_head; exact Hc).
  destruct ((k <=? n) && (n <=? 21)) eqn:C1.
  { apply andb_true_iff in C1. destruct C1 as [A B].
    apply Z.leb_le in A. apply Z.leb_le in B.
    rewrite number_text_plain, parse_number_text.
    - rewrite app_nil_r, decimal_value_app, decimal_value_zeros by lia.
      cbn [exponent_value List.length]. change (0 - Z.of_nat 0) with 0.
      rewrite round_decimal_shift by lia.
      replace (n - k) with e by lia. reflexivity.
    - apply Forall_app. split; [exact Hds | apply zeros_all].
    - subst ds. discriminate.
    - subst ds. apply Lz.
    - constructor.
    - exact I.
    - exact Hrest. }
  destruct ((0 <? n) && (n <=? 21)) eqn:C2.
  { apply andb_true_iff in C2. destruct C2 as [A B].
    apply Z.ltb_lt in A. apply Z.leb_le in B.
    apply andb_false_iff in C1.
    assert (Hnk : n < k)
      by (destruct C1 as [C1|C1]; [apply Z.leb_gt in C1 | apply Z.leb_gt in C1]; lia).
    assert (Ls : List.length (skipn (Z.to_nat n) ds) = Z.to_nat (k - n))
      by (rewrite length_skipn; subst k; lia).
    assert (Ns : skipn (Z.to_nat n) ds <> []).
    { intros E0. rewrite E0 in Ls. cbn [List.length] in Ls. lia. }
    rewrite number_text_fraction by exact Ns. rewrite parse_number_text.
    - rewrite firstn_skipn, Ls. cbn [exponent_value].
      replace (0 - Z.of_nat (Z.to_nat (k - n))) with e by lia. reflexivity.
    - rewrite <- (firstn_skipn (Z.to_nat n) ds) in Hds.
      apply Forall_app in Hds. apply Hds.
    - subst ds. destruct (Z.to_nat n) eqn:En; [lia | discriminate].
    - subst ds. destruct (Z.to_nat n) eqn:En; [lia | apply Lz].
    - rewrite <- (firstn_skipn (Z.to_nat n) ds) in Hds.
      apply Forall_app in Hds. apply Hds.
    - exact I.
    - exact Hrest. }
  destruct ((-6 <? n) && (n <=? 0)) eqn:C3.
  { apply andb_true_iff in C3. destruct C3 as [A B].
    apply Z.ltb_lt in A. apply Z.leb_le in B.
    assert (Nf : zeros (- n) ++ ds <> [])
      by (intros E0; apply app_eq_nil in E0; destruct E0; contradiction).
    change ("0"%char :: "."%char :: zeros (- n) ++ ds)
      with (["0"%char] ++ "."%char :: (zeros (- n) ++ ds)).
    rewrite number_text_fraction by exact Nf. rewrite parse_number_text.
    - cbn [app decimal_value]. change (10 * 0 + digit_value "0") with 0.
      rewrite decimal_value_app, decimal_value_zeros by lia.
      rewrite Z.mul_0_l, length_app, Nat2Z.inj_add, zeros_length by lia.
      cbn [exponent_value]. fold k.
      replace (0 - (- n + k)) with e by lia. reflexivity.
    - constructor; [reflexivity | constructor].
    - discriminate.
    - reflexivity.
    - apply Forall_app. split; [apply zeros_all | exact Hds].
    - exact I.
    - exact Hrest. }
  destruct (exponent_text_spec (n - 1)) as [Et Ev].
  assert (Hex : Forall (fun c => is_digit c = true) (digits (Z.abs (n - 1))) /\
                digits (Z.abs (n - 1)) <> [])
    by (split; [apply digits_all | apply digits_nonempty]).
  subst ds. destruct tl as [|d tl].
  - transitivity (parse_number
      (number_text neg [c] [] (Some (0 <? n - 1, digits (Z.abs (n - 1)))) ++ rest)).
    { f_equal. unfold number_text. rewrite Et.
      destruct neg; repeat (rewrite <- app_assoc || cbn [app]); reflexivity. }
    rewrite parse_number_text.
    + rewrite Ev, app_nil_r. cbn [List.length].
      replace (n - 1 - Z.of_nat 0) with e
        by (subst n k; cbn [List.length]; lia).
      reflexivity.
    + constructor; [inversion Hds; assumption | constructor].
    + discriminate.
    + reflexivity.
    + constructor.
    + exact Hex.
    + exact Hrest.
  - transitivity (parse_number
      (number_text neg [c] (d :: tl)
         (Some (0 <? n - 1, digits (Z.abs (n - 1)))) ++ rest)).
    { f_equal. unfold number_text. rewrite Et.
      destruct neg; repeat (rewrite <- app_assoc || cbn [app]); reflexivity. }
    rewrite parse_number_text.
    + rewrite Ev. cbn [app].
      replace (n - 1 - Z.of_nat (List.length (d :: tl))) with e
        by (subst n k; cbn [List.length]; lia).
      reflexivity.
    + constructor; [inversion Hds; assumption | constructor].
    + discriminate.
    + reflexivity.
    + inversion Hds; assumption.
    + exact Hex.
    + exact Hrest.
Qed.

Lemma sf_eqb_eq (x y : spec_float) : sf_eqb x y = true -> x = y.
Proof.
  destruct x as [a|a| |a m e], y as [b|b| |b m' e']; cbn [sf_eqb];
    try discriminate; intros H.
  - apply Bool.eqb_prop in H. congruence.
  - apply Bool.eqb_prop in H. congruence.
  - reflexivity.
  - apply andb_true_iff in H. destruct H as [H He].
    apply andb_true_iff in H. destruct H as [Hs Hm].
    apply Bool.eqb_prop in Hs. apply Pos.eqb_eq in Hm. apply Z.eqb_eq in He.
    congruence.
Qed.

Lemma first_exact_sound (x : spec_float) (cs : list (Z * Z)) (s e : Z) :
  first_exact x cs = Some (s, e) -> 0 < s /\ round_decimal s e = x.
Proof.
  induction cs as [|[s' e'] cs IH]; cbn [first_exact]; [discriminate|].
  destruct ((0 <? s') && sf_eqb (round_decimal s' e') x) eqn:C; [|exact IH].
  intros H. injection H as -> ->.
  apply andb_true_iff in C. destruct C as [A B].
  split; [apply Z.ltb_lt; exact A | apply sf_eqb_eq; exact B].
Qed.

Lemma shortest_from_sound (fuel : nat) (x : spec_float) (num den n : Z) :
  forall k s e,
    shortest_from fuel x num den n k = Some (s, e) ->
    0 < s /\ round_decimal s e = x.
Proof.
  induction fuel as [|fuel IH]; intros k s e; cbn [shortest_from]; [discriminate|].
  destruct (first_exact x (candidates num den n k)) as [[s' e']|] eqn:F.
  - intros H. injection H as -> ->. exact (first_exact_sound _ _ _ _ F).
  - apply IH.
Qed.

Lemma shortest_sound (m : positive) (e s e10 : Z) :
  shortest m e = Some (s, e10) ->
  0 < s /\ round_decimal s e10 = S754_finite false m e.
Proof. unfold shortest. apply shortest_from_sound. Qed.

Lemma signed_finite (x : float) (sg : bool) (m : positive) (e : Z) :
  Prim2SF x = S754_finite sg m e ->
  signed sg (SF2Prim (S754_finite false m e)) = x.
Proof.
  intros E. destruct sg; cbn [signed].
  - apply Prim2SF_inj. rewrite opp_spec, Prim2SF_SF2Prim, E; [reflexivity|].
    pose proof (Prim2SF_valid x) as V. rewrite E in V. exact V.
  - rewrite <- E. apply SF2Prim_Prim2SF.
Qed.

Lemma parse_number_toString (x : float) (rest : list ascii) :
  valid_number x = true ->
  starts_with continues_number rest = false ->
  parse_number (Number_toString x ++ rest) = Some (x, rest).
Proof.
  unfold valid_number, Number_toString. intros V R.
  destruct (Prim2SF x) as [sg|sg| |sg m e] eqn:E; try discriminate.
  - destruct sg; [discriminate|].
    rewrite (number_text_plain false ["0"%char] rest : ["0"%char] ++ rest = _).
    rewrite parse_number_text;
      [| constructor; [reflexivity | constructor] | discriminate | reflexivity
       | constructor | exact I | exact R].
    assert (Z0 : round_decimal (decimal_value 0 (["0"%char] ++ []))
                   (exponent_value None - Z.of_nat (List.length (@nil ascii))) =
                 S754_zero false) by reflexivity.
    rewrite Z0, <- E. cbn [signed]. rewrite SF2Prim_Prim2SF. reflexivity.
  - destruct (shortest m e) as [[s e10]|] eqn:S; [|discriminate].
    destruct (shortest_sound m e s e10 S) as [Hs Hr].
    rewrite <- app_assoc. unfold format.
    rewrite parse_number_format;
      [| apply digits_all | apply digits_head; exact Hs | exact R].
    rewrite decimal_value_of_digits by lia.
    rewrite Hr, (signed_finite x sg m e E). reflexivity.
Qed.

(** *** Strings *)

Lemma parse_string_quote_char (c : ascii) (tl : list ascii) :
  parse_string (quote_char c ++ tl) =
    match parse_string tl with
    | Some (s, r) => Some (String c s, r)
    | None => None
    end.
Proof.
  destruct c as [[] [] [] [] [] [] [] []]; reflexivity.
Qed.

Lemma parse_string_quote (s : string) (rest : list ascii) :
  parse_string (quote_chars s ++ quotation_mark :: rest) = Some (s, rest).
Proof.
  induction s as [|c s IH].
  - reflexivity.
  - cbn [quote_chars]. rewrite <- app_assoc, parse_string_quote_char, IH.
    reflexivity.
Qed.

Lemma QuoteJSONString_app (s : string) (rest : list ascii) :
  QuoteJSONString s ++ rest =
    quotation_mark :: quote_chars s ++ quotation_mark :: rest.
Proof.
  unfold QuoteJSONString. cbn [app]. rewrite <- app_assoc. reflexivity.
Qed.

(** *** Values *)

Lemma parse_value_number (fuel : nat) (c : ascii) (t : list ascii) :
  number_start c = true ->
  parse_value (S fuel) (c :: t) =
    match parse_number (c :: t) with
    | Some (x, r) => Some (JNumber x, r)
    | None => None
    end.
Proof.
  destruct c as [[] [] [] [] [] [] [] []]; intros H;
    try discriminate H; reflexivity.
Qed.

Lemma parse_value_array (fuel : nat) (c : ascii) (t : list ascii) :
  value_start c = true ->
  parse_value (S fuel) ("["%char :: c :: t) =
    match parse_elements fuel (c :: t) with
    | Some (vs, r) => Some (JArray vs, r)
    | None => None
    end.
Proof.
  destruct c as [[] [] [] [] [] [] [] []]; intros H;
    try discriminate H; reflexivity.
Qed.

Lemma parse_value_object (fuel : nat) (t : list ascii) :
  parse_value (S fuel) ("{"%char :: quotation_mark :: t) =
    match parse_members fuel (quotation_mark :: t) with
    | Some (ms, r) => Some (JObject ms, r)
    | None => None
    end.
Proof. reflexivity. Qed.

Lemma valid_number_finite (x : float) :
  valid_number x = true -> finite x = true.
Proof.
  unfold valid_number, finite. destruct (Prim2SF x); try discriminate; reflexivity.
Qed.

Lemma format_digits_head (c : ascii) (tl : list ascii) (e : Z) :
  is_digit c = true ->
  exists c' t, format_digits (c :: tl) e = c' :: t /\ is_digit c' = true.
Proof.
  intros Hc. unfold format_digits.
  set (k := Z.of_nat (List.length (c :: tl))). set (n := e + k).
  destruct ((k <=? n) && (n <=? 21)).
  { exists c, (tl ++ zeros (n - k)). split; [reflexivity | exact Hc]. }
  destruct ((0 <? n) && (n <=? 21)) eqn:C2.
  { apply andb_true_iff in C2. destruct C2 as [A _]. apply Z.ltb_lt in A.
    destruct (Z.to_nat n) as [|m] eqn:En; [lia|].
    exists c, (firstn m tl ++ "."%char :: skipn (S m) (c :: tl)).
    split; [reflexivity | exact Hc]. }
  destruct ((-6 <? n) && (n <=? 0)).
  { exists "0"%char, ("."%char :: zeros (- n) ++ c :: tl).
    split; reflexivity. }
  destruct tl as [|d tl].
  - exists c, ("e"%char :: exponent_text (n - 1)). split; [reflexivity | exact Hc].
  - exists c, ("."%char :: (d :: tl) ++ "e"%char :: exponent_text (n - 1)).
    split; [reflexivity | exact Hc].
Qed.

Lemma Number_toString_head (x : float) :
  valid_number x = true ->
  exists c t, Number_toString x = c :: t /\ number_start c = true.
Proof.
  unfold valid_number, Number_toString. intros V.
  destruct (Prim2SF x) as [sg|sg| |sg m e] eqn:E; try discriminate.
  - exists "0"%char, []. split; reflexivity.
  - destruct (shortest m e) as [[s e10]|] eqn:S; [|discriminate].
    destruct (shortest_sound m e s e10 S) as [Hs _].
    destruct sg.
    + exists "-"%char, (format s e10). split; reflexivity.
    + destruct (digits_head s Hs) as (c & tl & Ed & _).
      pose proof (digits_all s) as Hall. rewrite Ed in Hall.
      assert (Hc : is_digit c = true) by (inversion Hall; assumption).
      destruct (format_digits_head c tl e10 Hc) as (c' & t & Ef & Hc').
      exists c', t. unfold format. rewrite Ed. split; [exact Ef|].
      unfold number_start. rewrite Hc'. reflexivity.
Qed.

Lemma print_head (v : value) :
  numbers_valid v = true ->
  exists c t, print v = c :: t /\ value_start c = true.
Proof.
  destruct v as [|b|x|s|vs|ms]; intros V.
  - exists "n"%char, (list_ascii_of_string "ull"). split; reflexivity.
  - destruct b.
    + exists "t"%char, (list_ascii_of_string "rue"). split; reflexivity.
    + exists "f"%char, (list_ascii_of_string "alse"). split; reflexivity.
  - cbn [numbers_valid] in V. cbn [print].
    rewrite (valid_number_finite x V).
    destruct (Number_toString_head x V) as (c & t & E & Hc).
    exists c, t. split; [exact E|]. unfold value_start. rewrite Hc. reflexivity.
  - exists quotation_mark, (quote_chars s ++ [quotation_mark]). split; reflexivity.
  - eexists "["%char, _. split; reflexivity.
  - eexists "{"%char, _. split; reflexivity.
Qed.

Lemma list_sum_map_cons {A : Type} (f : A -> nat) (a : A) (l : list A) :
  list_sum (map f (a :: l)) = (f a + list_sum (map f l))%nat.
Proof. reflexivity. Qed.

Lemma parse_elements_print (vs : list value) :
  Forall (fun v => numbers_valid v = true -> round_trips v) vs ->
  forallb numbers_valid vs = true ->
  vs <> [] ->
  forall fuel rest,
    (list_sum (map (fun v => S (size v)) vs) <= fuel)%nat ->
    parse_elements fuel (join (map print vs) ++ "]"%char :: rest) =
      Some (vs, rest).
Proof.
  induction 1 as [|v vs Hv H IH]; intros V N fuel rest F; [contradiction|].
  cbn [forallb] in V. apply andb_true_iff in V. destruct V as [Vv Vs].
  rewrite list_sum_map_cons in F.
  destruct fuel as [|fuel]; [lia|].
  cbn [map join]. rewrite <- app_assoc. cbn [parse_elements].
  destruct vs as [|v' vs].
  - cbn [map app]. rewrite (Hv Vv) by (reflexivity || lia).
    decide_chars. reflexivity.
  - cbn [map app].
    rewrite (Hv Vv) by (reflexivity || (cbn [map list_sum fold_right] in F; lia)).
    decide_chars.
    change (print v' :: map print vs) with (map print (v' :: vs)).
    rewrite IH; [reflexivity | exact Vs | discriminate | lia].
Qed.

Lemma parse_members_print (ms : list (string * value)) :
  Forall (fun m => numbers_valid (snd m) = true -> round_trips (snd m)) ms ->
  forallb (fun m => numbers_valid (snd m)) ms = true ->
  ms <> [] ->
  forall fuel rest,
    (list_sum (map (fun m => S (size (snd m))) ms) <= fuel)%nat ->
    parse_members fuel
      (join (map (fun '(k, v) => QuoteJSONString k ++ ":"%char :: print v) ms) ++
       "}"%char :: rest) =
      Some (ms, rest).
Proof.
  induction 1 as [|[k v] ms Hv H IH]; intros V N fuel rest F; [contradiction|].
  cbn [forallb snd] in V. apply andb_true_iff in V. destruct V as [Vv Vs].
  rewrite list_sum_map_cons in F. cbn [snd] in F. cbn [snd] in Hv.
  destruct fuel as [|fuel]; [lia|].
  cbn [map join]. rewrite <- !app_assoc, QuoteJSONString_app.
  cbn [parse_members]. decide_chars.
  rewrite parse_string_quote. decide_chars.
  destruct ms as [|m' ms].
  - cbn [map app]. decide_chars. rewrite (Hv Vv) by (reflexivity || lia).
    decide_chars. reflexivity.
  - cbn [map app]. decide_chars.
    rewrite (Hv Vv) by (reflexivity || lia).
    decide_chars.
    change ((let '(k0, v0) := m' in QuoteJSONString k0 ++ ":"%char :: print v0)
            :: map (fun '(k0, v0) => QuoteJSONString k0 ++ ":"%char :: print v0) ms)
      with (map (fun '(k0, v0) => QuoteJSONString k0 ++ ":"%char :: print v0)
              (m' :: ms)).
    rewrite IH; [reflexivity | exact Vs | discriminate | lia].
Qed.

Lemma print_round_trips (v : value) :
  numbers_valid v = true -> round_trips v.
Proof.
  induction v as [|b|x|s|vs IH|ms IH] using value_induction;
    intros V fuel rest F R; cbn [size] in F;
    (destruct fuel as [|fuel]; [lia|]).
  - reflexivity.
  - destruct b; reflexivity.
  - cbn [numbers_valid] in V. cbn [print].
    rewrite (valid_number_finite x V).
    destruct (Number_toString_head x V) as (c & t & E & Hc).
    pose proof (parse_number_toString x rest V R) as P.
    rewrite E in *. cbn [app] in *.
    rewrite (parse_value_number fuel c (t ++ rest) Hc), P. reflexivity.
  - cbn [print]. rewrite QuoteJSONString_app.
    cbn [parse_value]. decide_chars.
    rewrite parse_string_quote. reflexivity.
  - cbn [numbers_valid] in V. cbn [print app]. rewrite <- app_assoc.
    destruct vs as [|v vs]; [reflexivity|].
    assert (Vv : numbers_valid v = true)
      by (cbn [forallb] in V; apply andb_true_iff in V; apply V).
    destruct (print_head v Vv) as (c & t & E & Hc).
    pose proof (parse_elements_print (v :: vs) IH V ltac:(discriminate)
                  fuel rest ltac:(lia)) as P.
    cbn [map join] in *. rewrite E in *. cbn [app] in *.
    rewrite (parse_value_array fuel c _ Hc), P. reflexivity.
  - cbn [numbers_valid] in V. cbn [print app]. rewrite <- app_assoc. cbn [app].
    destruct ms as [|[k v] ms]; [reflexivity|].
    pose proof (parse_members_print ((k, v) :: ms) IH V ltac:(discriminate)
                  fuel rest ltac:(lia)) as P.
    assert (E : exists t,
               join (map (fun '(k, v) => QuoteJSONString k ++ ":"%char :: print v)
                       ((k, v) :: ms)) ++ "}"%char :: rest =
               quotation_mark :: t).
    { cbn [map join]. rewrite <- !app_assoc, QuoteJSONString_app.
      eexists. reflexivity. }
    destruct E as [t E]. rewrite E in P |- *.
    rewrite (parse_value_object fuel t), P. reflexivity.
Qed.

(** A text is at least as long as the fuel that reading it takes. *)
Lemma QuoteJSONString_length (s : string) :
  (1 <= List.length (QuoteJSONString s))%nat.
Proof. unfold QuoteJSONString. cbn [List.length]. lia. Qed.

Lemma elements_length (vs : list value) :
  Forall (fun v => numbers_valid v = true ->
                   (size v <= List.length (print v))%nat) vs ->
  forallb numbers_valid vs = true ->
  (list_sum (map (fun v => S (size v)) vs) <=
   List.length (join (map print vs)) + 1)%nat.
Proof.
  induction 1 as [|v vs Hv H IH]; intros V; [cbn; lia|].
  cbn [forallb] in V. apply andb_true_iff in V. destruct V as [Vv Vs].
  specialize (Hv Vv). specialize (IH Vs).
  rewrite list_sum_map_cons. cbn [map join]. rewrite length_app.
  destruct vs as [|v' vs].
  - cbn [map list_sum fold_right List.length]. lia.
  - cbn [map].
    change (print v' :: map print vs) with (map print (v' :: vs)).
    change (S (size v') :: map (fun v0 => S (size v0)) vs)
      with (map (fun v0 => S (size v0)) (v' :: vs)).
    cbn [List.length]. lia.
Qed.

Lemma members_length (ms : list (string * value)) :
  Forall (fun m => numbers_valid (snd m) = true ->
                   (size (snd m) <= List.length (print (snd m)))%nat) ms ->
  forallb (fun m => numbers_valid (snd m)) ms = true ->
  (list_sum (map (fun m => S (size (snd m))) ms) <=
   List.length
     (join (map (fun '(k, v) => QuoteJSONString k ++ ":"%char :: print v) ms)) + 1)%nat.
Proof.
  induction 1 as [|[k v] ms Hv H IH]; intros V; [cbn; lia|].
  cbn [forallb snd] in V. apply andb_true_iff in V. destruct V as [Vv Vs].
  cbn [snd] in Hv. specialize (Hv Vv). specialize (IH Vs).
  rewrite list_sum_map_cons. cbn [snd map join]. rewrite !length_app.
  pose proof (QuoteJSONString_length k) as Q.
  destruct ms as [|m' ms].
  - cbn [map list_sum fold_right List.length]. lia.
  - cbn [map].
    change ((let '(k0, v0) := m' in QuoteJSONString k0 ++ ":"%char :: print v0)
            :: map (fun '(k0, v0) => QuoteJSONString k0 ++ ":"%char :: print v0) ms)
      with (map (fun '(k0, v0) => QuoteJSONString k0 ++ ":"%char :: print v0)
              (m' :: ms)).
    change (S (size (snd m')) :: map (fun m => S (size (snd m))) ms)
      with (map (fun m => S (size (snd m))) (m' :: ms)).
    cbn [List.length]. lia.
Qed.

Lemma size_le_length (v : value) :
  numbers_valid v = true -> (size v <= List.length (print v))%nat.
Proof.
  induction v as [|b|x|s|vs IH|ms IH] using value_induction; intros V.
  - cbn. lia.
  - destruct b; cbn; lia.
  - destruct (print_head (JNumber x) V) as (c & t & E & _).
    rewrite E. cbn [size List.length]. lia.
  - cbn [size print]. apply QuoteJSONString_length.
  - cbn [numbers_valid] in V. pose proof (elements_length vs IH V).
    cbn [size print List.length]. rewrite length_app. cbn [List.length]. lia.
  - cbn [numbers_valid] in V. pose proof (members_length ms IH V).
    cbn [size print List.length]. rewrite length_app. cbn [List.length]. lia.
Qed.

Lemma parse_print (v : value) :
  numbers_valid v = true -> parse (print v) = Some v.
Proof.
  intros V. unfold parse.
  pose proof (print_round_trips v V (List.length (print v)) []
                (size_le_length v V) eq_refl) as P.
  rewrite app_nil_r in P. rewrite P. reflexivity.
Qed.

(** *** The state object *)

Lemma FlowState_of_number_of (f : FlowState.t) :
  FlowState_of_number (number_of_FlowState f) = Some f.
Proof. destruct f; vm_compute; reflexivity. Qed.

Lemma valid_number_of_FlowState (f : FlowState.t) :
  valid_number (number_of_FlowState f) = true.
Proof. destruct f; vm_compute; reflexivity. Qed.

Lemma IFlowItem_of_value_of (f : IFlowItem.t) :
  IFlowItem_of_value (value_of_IFlowItem f) = Some f.
Proof. destruct f as [[n|] [st|] [et|]]; reflexivity. Qed.

Lemma flows_of_values_of (fs : list IFlowItem.t) :
  flows_of_values (map value_of_IFlowItem fs) = Some fs.
Proof.
  induction fs as [|f fs IH]; [reflexivity|].
  cbn [map flows_of_values]. rewrite IFlowItem_of_value_of, IH. reflexivity.
Qed.

Lemma as_currentFlow_of (cf : option IFlowItem.t) :
  as_currentFlow
    match cf with
    | Some f => value_of_IFlowItem f
    | None => JNull
    end = Some cf.
Proof.
  destruct cf as [f|]; [|reflexivity].
  pose proof (IFlowItem_of_value_of f) as E.
  unfold as_currentFlow. unfold value_of_IFlowItem in *. rewrite E. reflexivity.
Qed.

Lemma State_of_value_of (s : State) :
  State_of_value (value_of_State s) = Some s.
Proof.
  destruct s as [st et fi cf fs fl it trt ffl].
  unfold State_of_value, value_of_State.
  cbn [startTime endTime flowInput currentFlow flowState flows inTransition
       transitionTime filterFlowLength].
  unfold required.
  cbv [get fold_left fst snd String.eqb Ascii.eqb Bool.eqb andb].
  cbn [as_number as_string as_bool as_flowState as_flows].
  rewrite as_currentFlow_of, FlowState_of_number_of, flows_of_values_of.
  destruct ffl; reflexivity.
Qed.

Lemma numbers_valid_IFlowItem (f : IFlowItem.t) :
  valid_flow f = true -> numbers_valid (value_of_IFlowItem f) = true.
Proof.
  destruct f as [[n|] [st|] [et|]]; unfold valid_flow;
    cbn [IFlowItem.startTime IFlowItem.endTime valid_optional];
    intros V; cbn [value_of_IFlowItem optional_member app IFlowItem.name
                   IFlowItem.startTime IFlowItem.endTime numbers_valid forallb snd];
    try apply andb_true_iff in V; try destruct V as [V1 V2];
    rewrite ?V1, ?V2, ?andb_true_r in *; try reflexivity; try assumption.
Qed.

Lemma numbers_valid_flows (fs : list IFlowItem.t) :
  forallb valid_flow fs = true ->
  forallb numbers_valid (map value_of_IFlowItem fs) = true.
Proof.
  induction fs as [|f fs IH]; [reflexivity|].
  cbn [forallb map]. intros V. apply andb_true_iff in V. destruct V as [Vf Vs].
  rewrite (numbers_valid_IFlowItem f Vf), (IH Vs). reflexivity.
Qed.

Lemma numbers_valid_State (s : State) :
  valid_snapshot s = true -> numbers_valid (value_of_State s) = true.
Proof.
  unfold valid_snapshot. intros V.
  apply andb_true_iff in V. destruct V as [V Vfl].
  apply andb_true_iff in V. destruct V as [V Vcf].
  apply andb_true_iff in V. destruct V as [V Vffl].
  apply andb_true_iff in V. destruct V as [V Vtt].
  apply andb_true_iff in V. destruct V as [Vst Vet].
  unfold value_of_State. cbn [numbers_valid forallb snd].
  rewrite Vst, Vet, Vtt, valid_number_of_FlowState, (numbers_valid_flows _ Vfl).
  cbn [andb].
  assert (C : numbers_valid
                match currentFlow s with
                | Some f => value_of_IFlowItem f
                | None => JNull
                end = true).
  { destruct (currentFlow s) as [f|]; [|reflexivity].
    apply numbers_valid_IFlowItem. exact Vcf. }
  assert (L : numbers_valid
                match filterFlowLength s with
                | Num n => JNumber n
                | Str t => JString t
                end = true)
    by (destruct (filterFlowLength s); [exact Vffl | reflexivity]).
  rewrite C, L. reflexivity.
Qed.

Lemma JSON_parse_stringify (s : State) :
  valid_snapshot s = true ->
  JSON_parse_state (JSON_stringify_state s) = Some s.
Proof.
  intros V. unfold JSON_parse_state, JSON_stringify_state.
  rewrite list_ascii_of_string_of_list_ascii.
  rewrite (parse_print _ (numbers_valid_State s V)).
  apply State_of_value_of.
Qed.

Lemma JSON_stringify_nonempty (s : State) :
  (0 <? String.length (JSON_stringify_state s))%nat = true.
Proof. reflexivity. Qed.

(** The default snapshot and the one at the end of a day with one flow are
    valid. *)
Lemma scenario_snapshots_valid :
  valid_snapshot DEFAULT_STATE = true /\
  valid_snapshot (state (after one_flow_day)) = true.
Proof. split; vm_compute; reflexivity. Qed.

(** Outside the valid snapshots: [-0] is stored as [0] and comes back as
    [+0], and NaN is stored as [null], which is no Number. *)
Lemma other_numbers_not_restored :
  JSON_parse_state (JSON_stringify_state (set_startTime neg_zero DEFAULT_STATE)) =
    Some DEFAULT_STATE /\
  set_startTime neg_zero DEFAULT_STATE <> DEFAULT_STATE /\
  JSON_parse_state (JSON_stringify_state (set_startTime nan DEFAULT_STATE)) = None.
Proof.
  split; [vm_compute; reflexivity | split; [| vm_compute; reflexivity]].
  intro H. apply (f_equal (fun s => Prim2SF (startTime s))) in H.
  vm_compute in H. discriminate.
Qed.


